(** * persistent-memory-server: the dual-store memory service

    A shallow embedding of [server.py] and of the three modules of
    [services/] (database_service, vector_service, embedding_service).

    The Python code is effectful: it talks to PostgreSQL through a connection
    pool, to Qdrant through a client handle and to a sentence-transformer
    model, all three held in module-level globals.  The embedding threads one
    [World] value through every call and keeps Python's exceptions as a
    second kind of outcome; an exception never undoes what was written to the
    world before it was raised. *)

From Stdlib Require Import List ZArith NArith QArith Bool String Ascii Lia.
From Stdlib Require Import DecimalString Permutation Sorted.
Import ListNotations.

Local Open Scope string_scope.
Local Open Scope Z_scope.

(** ** Values *)

(** [uuid.UUID]: 128 bits, here a natural number.  [str(memory_id)] and
    [UUID(hit.id)] are inverse to each other, so a Qdrant point id is kept as
    the UUID it was made from. *)
Definition UUID := N.

(** [datetime]: a count of clock units since some epoch. *)
Definition datetime := Z.

(** A Python [float] that the code only stores and compares. *)
Definition float := Q.

(** [np.ndarray] of shape (384,): the embedding of a text. *)
Definition ndarray := list Q.

Definition isoformat (t : datetime) : string :=
  NilZero.string_of_int (Z.to_int t).

(** [str(memory_id)] inside a message. *)
Definition uuid_str (u : UUID) : string :=
  NilZero.string_of_uint (N.to_uint u).

(** Python truthiness of an [Optional[str]]: [None] and the empty string are
    both false. *)
Definition truthy (o : option string) : bool :=
  match o with
  | Some s => negb (String.eqb s "")
  | None => false
  end.

Definition is_some {A} (o : option A) : bool :=
  match o with Some _ => true | None => false end.

(** ** Exceptions *)

Inductive Exception :=
| RuntimeError (msg : string)
| HTTPException (status_code : nat) (detail : string)
| RequestValidationError (loc : string)
| ClientError (msg : string).

(** [str(e)] as it is spliced into the [detail] of a 500 response. *)
Definition str (e : Exception) : string :=
  match e with
  | RuntimeError msg => msg
  | HTTPException _ detail => detail
  | RequestValidationError loc => loc
  | ClientError msg => msg
  end.

Definition HTTP_201_CREATED : nat := 201.
Definition HTTP_204_NO_CONTENT : nat := 204.
Definition HTTP_404_NOT_FOUND : nat := 404.
Definition HTTP_422_UNPROCESSABLE_ENTITY : nat := 422.
Definition HTTP_500_INTERNAL_SERVER_ERROR : nat := 500.

(** ** The relational store *)

Module Memories.
(** A row of the [memories] table, with the columns the services name.
    [created_at], [updated_at], [accessed_count], [last_accessed] and
    [should_forget] are never given by the INSERT: the table fills them
    in. *)
Record row := {
  memory_id : UUID;
  interface : string;
  context : string;
  with_whom : option string;
  what_happened : string;
  experience_type : string;
  timestamp : datetime;
  duration_seconds : option Z;
  emotion_primary : string;
  emotion_intensity : float;
  emotion_why : option string;
  emotion_secondary : list string;
  importance_to_me : float;
  importance_reasons : list string;
  modalities : list string;
  text_content : string;
  visual_path : option string;
  audio_path : option string;
  video_path : option string;
  patterns_extracted : list string;
  insights : list string;
  privacy_realm : string;
  session_id : UUID;
  is_breakthrough : option bool;
  is_celebration : option bool;
  is_milestone : option bool;
  our_moment_tag : list string;
  created_at : datetime;
  updated_at : datetime;
  accessed_count : Z;
  last_accessed : option datetime;
  should_forget : bool
}.

(** SET should_forget = TRUE, updated_at = NOW() *)
Definition forget (now : datetime) (r : row) : row :=
  {| memory_id := memory_id r; interface := interface r; context := context r;
     with_whom := with_whom r; what_happened := what_happened r;
     experience_type := experience_type r; timestamp := timestamp r;
     duration_seconds := duration_seconds r;
     emotion_primary := emotion_primary r;
     emotion_intensity := emotion_intensity r; emotion_why := emotion_why r;
     emotion_secondary := emotion_secondary r;
     importance_to_me := importance_to_me r;
     importance_reasons := importance_reasons r;
     modalities := modalities r; text_content := text_content r;
     visual_path := visual_path r; audio_path := audio_path r;
     video_path := video_path r; patterns_extracted := patterns_extracted r;
     insights := insights r; privacy_realm := privacy_realm r;
     session_id := session_id r; is_breakthrough := is_breakthrough r;
     is_celebration := is_celebration r; is_milestone := is_milestone r;
     our_moment_tag := our_moment_tag r; created_at := created_at r;
     updated_at := now;
     accessed_count := accessed_count r; last_accessed := last_accessed r;
     should_forget := true |}.

(** SET accessed_count = accessed_count + 1, last_accessed = NOW() *)
Definition touch (now : datetime) (r : row) : row :=
  {| memory_id := memory_id r; interface := interface r; context := context r;
     with_whom := with_whom r; what_happened := what_happened r;
     experience_type := experience_type r; timestamp := timestamp r;
     duration_seconds := duration_seconds r;
     emotion_primary := emotion_primary r;
     emotion_intensity := emotion_intensity r; emotion_why := emotion_why r;
     emotion_secondary := emotion_secondary r;
     importance_to_me := importance_to_me r;
     importance_reasons := importance_reasons r;
     modalities := modalities r; text_content := text_content r;
     visual_path := visual_path r; audio_path := audio_path r;
     video_path := video_path r; patterns_extracted := patterns_extracted r;
     insights := insights r; privacy_realm := privacy_realm r;
     session_id := session_id r; is_breakthrough := is_breakthrough r;
     is_celebration := is_celebration r; is_milestone := is_milestone r;
     our_moment_tag := our_moment_tag r; created_at := created_at r;
     updated_at := updated_at r;
     accessed_count := accessed_count r + 1; last_accessed := Some now;
     should_forget := should_forget r |}.
(** The row with its access bookkeeping blanked out: what a read must not
    change. *)
Definition without_access (r : row) : row :=
  {| memory_id := memory_id r; interface := interface r; context := context r;
     with_whom := with_whom r; what_happened := what_happened r;
     experience_type := experience_type r; timestamp := timestamp r;
     duration_seconds := duration_seconds r;
     emotion_primary := emotion_primary r;
     emotion_intensity := emotion_intensity r; emotion_why := emotion_why r;
     emotion_secondary := emotion_secondary r;
     importance_to_me := importance_to_me r;
     importance_reasons := importance_reasons r;
     modalities := modalities r; text_content := text_content r;
     visual_path := visual_path r; audio_path := audio_path r;
     video_path := video_path r; patterns_extracted := patterns_extracted r;
     insights := insights r; privacy_realm := privacy_realm r;
     session_id := session_id r; is_breakthrough := is_breakthrough r;
     is_celebration := is_celebration r; is_milestone := is_milestone r;
     our_moment_tag := our_moment_tag r; created_at := created_at r;
     updated_at := updated_at r;
     accessed_count := 0; last_accessed := None;
     should_forget := should_forget r |}.

End Memories.

Module Sessions.
Record row := {
  session_id : UUID;
  interface : string;
  started_at : datetime
}.
End Sessions.

(** The PostgreSQL server.  [accepting] is false while the server cannot be
    reached: every statement sent to it then fails in the driver. *)
Record Postgres := {
  accepting : bool;
  memories : list Memories.row;
  sessions : list Sessions.row
}.

(** ** The vector index *)

Inductive PayloadValue :=
| PStr (s : string)
| PNum (x : float).

(** The payload of a point: a dict, as an association list. *)
Definition Payload := list (string * PayloadValue).

Fixpoint payload_get (key : string) (p : Payload) : option PayloadValue :=
  match p with
  | [] => None
  | (k, v) :: p' => if String.eqb k key then Some v else payload_get key p'
  end.

Record PointStruct := {
  id : UUID;
  vector : ndarray;
  payload : Payload
}.

(** [FieldCondition(key, match=MatchValue(value))] and
    [FieldCondition(key, range={"gte": x})]. *)
Inductive FieldCondition :=
| MatchValue (key : string) (value : string)
| RangeGte (key : string) (gte : float).

(** [Filter(must=conditions)], or [None]. *)
Definition Filter := option (list FieldCondition).

Record ScoredPoint := {
  hit_id : UUID;
  hit_score : float;
  hit_payload : Payload
}.

(** The Qdrant server: whether it answers, the similarity of the
    [aurora-memories-text] collection and the points of that collection in
    the order the server enumerates them.  Nothing in the service fixes
    that order: [placement] is the server's own choice of where a new
    point goes among the ones it has (a position, read up to the length of
    the list). *)
Record Qdrant := {
  reachable : bool;
  similarity : ndarray -> ndarray -> float;
  text_points : list PointStruct;
  placement : PointStruct -> list PointStruct -> nat
}.

(** ** The embedding model *)

(** A loaded [SentenceTransformer]: its [encode].  [None] is a call that
    raises. *)
Definition SentenceTransformer := string -> option ndarray.

(** ** The world *)

(** The three module globals ([_pool], [_client], [_sbert_model]), the two
    servers behind the first two, the clock read by [datetime.utcnow()] and
    [NOW()], and the source of [uuid4()]. *)
Record World := {
  _pool : bool;
  postgres : Postgres;
  _client : bool;
  qdrant : Qdrant;
  _sbert_model : option SentenceTransformer;
  clock : datetime;
  next_uuid : UUID
}.

Definition with_postgres (pg : Postgres) (w : World) : World :=
  {| _pool := _pool w; postgres := pg; _client := _client w;
     qdrant := qdrant w; _sbert_model := _sbert_model w; clock := clock w;
     next_uuid := next_uuid w |}.

Definition with_qdrant (q : Qdrant) (w : World) : World :=
  {| _pool := _pool w; postgres := postgres w; _client := _client w;
     qdrant := q; _sbert_model := _sbert_model w; clock := clock w;
     next_uuid := next_uuid w |}.

Definition with_next_uuid (u : UUID) (w : World) : World :=
  {| _pool := _pool w; postgres := postgres w; _client := _client w;
     qdrant := qdrant w; _sbert_model := _sbert_model w; clock := clock w;
     next_uuid := u |}.

Definition with_pool (b : bool) (w : World) : World :=
  {| _pool := b; postgres := postgres w; _client := _client w;
     qdrant := qdrant w; _sbert_model := _sbert_model w; clock := clock w;
     next_uuid := next_uuid w |}.

Definition with_client (b : bool) (w : World) : World :=
  {| _pool := _pool w; postgres := postgres w; _client := b;
     qdrant := qdrant w; _sbert_model := _sbert_model w; clock := clock w;
     next_uuid := next_uuid w |}.

Definition with_sbert_model (m : option SentenceTransformer) (w : World)
    : World :=
  {| _pool := _pool w; postgres := postgres w; _client := _client w;
     qdrant := qdrant w; _sbert_model := m; clock := clock w;
     next_uuid := next_uuid w |}.

(** ** The monad of the service code *)

Inductive Outcome (A : Type) :=
| Return (a : A)
| Raise (e : Exception).
Arguments Return {A} a.
Arguments Raise {A} e.

Definition M (A : Type) := World -> Outcome A * World.

Definition ret {A} (a : A) : M A := fun w => (Return a, w).

Definition raise {A} (e : Exception) : M A := fun w => (Raise e, w).

Definition bind {A B} (m : M A) (k : A -> M B) : M B :=
  fun w =>
    match m w with
    | (Return a, w') => k a w'
    | (Raise e, w') => (Raise e, w')
    end.

(** [try: m  except Exception as e: handler e] *)
Definition try_except {A} (m : M A) (handler : Exception -> M A) : M A :=
  fun w =>
    match m w with
    | (Return a, w') => (Return a, w')
    | (Raise e, w') => handler e w'
    end.

Definition get_world : M World := fun w => (Return w, w).

Definition put_world (w : World) : M unit := fun _ => (Return tt, w).

Declare Scope py_scope.
Delimit Scope py_scope with py.
Notation "x <- m ;; k" := (bind m (fun x => k))
  (at level 100, m at next level, right associativity) : py_scope.
Notation "m ;;; k" := (bind m (fun _ => k))
  (at level 100, right associativity) : py_scope.
Local Open Scope py_scope.

(** [results = []; for x in xs: ... results.append(...)]: the loop body
    either contributes an element or not. *)
Fixpoint for_each {A B} (body : A -> M (option B)) (xs : list A) : M (list B) :=
  match xs with
  | [] => ret []
  | x :: xs' =>
      o <- body x ;;
      rest <- for_each body xs' ;;
      ret (match o with Some b => b :: rest | None => rest end)
  end.

(** [uuid4()] *)
Definition uuid4 : M UUID :=
  fun w => (Return (next_uuid w), with_next_uuid (N.succ (next_uuid w)) w).

(** [datetime.utcnow()], and [NOW()] on the database side. *)
Definition utcnow : M datetime := fun w => (Return (clock w), w).

(** ** SQL, as far as the statements of database_service use it *)

Section Sql.
Context {A : Type}.

(** ORDER BY ... DESC: [ge x y] says that [x] does not come after [y].
    Rows that compare equal stay in table order. *)
Fixpoint insert_desc (ge : A -> A -> bool) (x : A) (l : list A) : list A :=
  match l with
  | [] => [x]
  | y :: l' => if ge x y then x :: y :: l' else y :: insert_desc ge x l'
  end.

Definition order_by_desc (ge : A -> A -> bool) (l : list A) : list A :=
  fold_right (insert_desc ge) [] l.

(** A list is in the order ORDER BY ... DESC asks for. *)
Definition descending (ge : A -> A -> bool) : list A -> Prop :=
  StronglySorted (fun x y => ge x y = true).

(** UPDATE ... SET ... WHERE *)
Definition update_where (p : A -> bool) (f : A -> A) (l : list A) : list A :=
  map (fun r => if p r then f r else r) l.
End Sql.

(** [ILIKE]: PostgreSQL's pattern match, [%] for any run of characters, [_]
    for any one character and a backslash to take the next character
    literally, after folding the letters A-Z of both sides.  A pattern that
    ends in a lone backslash is an error in PostgreSQL; the patterns built
    below end in [%], so that case matches nothing here. *)
Definition lower (c : ascii) : ascii :=
  let n := nat_of_ascii c in
  if (Nat.leb 65 n && Nat.leb n 90)%bool then ascii_of_nat (n + 32) else c.

Fixpoint like (p : list ascii) (s : list ascii) {struct p} : bool :=
  match p with
  | [] => match s with [] => true | _ :: _ => false end
  | c :: p' =>
      if Ascii.eqb c "%" then
        (fix star (s : list ascii) : bool :=
           like p' s || match s with [] => false | _ :: s' => star s' end) s
      else if Ascii.eqb c "_" then
        match s with [] => false | _ :: s' => like p' s' end
      else if Ascii.eqb c "\" then
        match p' with
        | [] => false
        | d :: p'' =>
            match s with [] => false | e :: s' => Ascii.eqb d e && like p'' s' end
        end
      else
        match s with [] => false | e :: s' => Ascii.eqb c e && like p' s' end
  end.

Definition ilike (s pattern : string) : bool :=
  like (map lower (list_ascii_of_string pattern))
       (map lower (list_ascii_of_string s)).

(** ** embedding_service.py *)

Module embedding_service.

Definition get_text_embedding_sbert (text : string) : M ndarray :=
  w <- get_world ;;
  match _sbert_model w with
  | None =>
      raise (RuntimeError
               "SBERT model not loaded. Call init_embedding_models() first.")
  | Some model =>
      match model text with
      | Some embedding => ret embedding
      | None => raise (ClientError "encode failed")
      end
  end.

(** The returned dict has the one key ['text_sbert'] (the other models are
    TODOs in the source). *)
Definition generate_memory_embeddings (text_content : string)
    (visual_path audio_path : option string) : M (list (string * ndarray)) :=
  e <- get_text_embedding_sbert text_content ;;
  ret [("text_sbert", e)].

(** [init_embedding_models]: [_sbert_model = SentenceTransformer(...)];
    [pretrained] is what that constructor gives: the model it loads, or
    [None] when it raises because the model cannot be loaded. *)
Definition init_embedding_models (pretrained : option SentenceTransformer)
    : M unit :=
  match pretrained with
  | Some model => fun w => (Return tt, with_sbert_model (Some model) w)
  | None => raise (ClientError "the model could not be loaded")
  end.

(** [shutdown]: [_sbert_model = None]. *)
Definition shutdown : M unit :=
  fun w => (Return tt, with_sbert_model None w).

End embedding_service.

(** ** database_service.py *)

Module ListFilters.
(** The [filters] dict of [list_memories] and [count_memories]: a key is
    either absent or bound. *)
Record t := {
  interface : option string;
  context : option string;
  emotion_primary : option string;
  experience_type : option string;
  min_importance : option float;
  with_whom : option string
}.

Definition empty : t :=
  {| interface := None; context := None; emotion_primary := None;
     experience_type := None; min_importance := None; with_whom := None |}.
End ListFilters.

Module Created.
(** The dict [database_service.create_memory] returns. *)
Record t := {
  memory_id : UUID;
  interface : string;
  context : string;
  what_happened : string;
  experience_type : string;
  emotion_primary : string;
  emotion_intensity : float;
  importance_to_me : float;
  timestamp : datetime;
  created_at : datetime;
  modalities : list string;
  privacy_realm : string;
  session_id : UUID
}.
End Created.

Module database_service.

(** [async with get_connection() as conn], then one statement on [conn]:
    the pool must have been initialised and the server must answer. *)
Definition get_connection : M unit :=
  w <- get_world ;;
  if _pool w then
    if accepting (postgres w) then ret tt
    else raise (ClientError "could not connect to server")
  else
    raise (RuntimeError
             "Database pool not initialized. Call init_pool() first.").

Definition put_postgres (pg : Postgres) : M unit :=
  fun w => (Return tt, with_postgres pg w).

Definition create_session (interface : string) : M UUID :=
  session_id <- uuid4 ;;
  get_connection ;;;
  w <- get_world ;;
  let pg := postgres w in
  if existsb (fun s => N.eqb (Sessions.session_id s) session_id) (sessions pg)
  then raise (ClientError "duplicate key value violates unique constraint")
  else
    put_postgres
      {| accepting := accepting pg;
         memories := memories pg;
         sessions :=
           (sessions pg ++
              [ {| Sessions.session_id := session_id;
                   Sessions.interface := interface;
                   Sessions.started_at := clock w |} ])%list |} ;;;
    ret session_id.

Definition create_memory
    (interface context what_happened experience_type emotion_primary : string)
    (emotion_intensity importance_to_me : float)
    (importance_reasons : list string)
    (text_content : string)
    (session_id : option UUID)
    (with_whom emotion_why : option string)
    (emotion_secondary : option (list string))
    (duration_seconds : option Z)
    (visual_path audio_path video_path : option string)
    (patterns_extracted insights : option (list string))
    (privacy_realm : string)
    (is_breakthrough is_celebration is_milestone : option bool)
    (our_moment_tag : option (list string)) : M Created.t :=
  memory_id <- uuid4 ;;
  timestamp <- utcnow ;;
  let modalities :=
    (["text"]
       ++ (if truthy visual_path then ["visual"] else [])
       ++ (if truthy audio_path then ["audio"] else [])
       ++ (if truthy video_path then ["video"] else []))%list in
  session_id <- match session_id with
                | None => create_session interface
                | Some s => ret s
                end ;;
  get_connection ;;;
  w <- get_world ;;
  let pg := postgres w in
  if existsb (fun r => N.eqb (Memories.memory_id r) memory_id) (memories pg)
  then raise (ClientError "duplicate key value violates unique constraint")
  else
    let row :=
      {| Memories.memory_id := memory_id;
         Memories.interface := interface;
         Memories.context := context;
         Memories.with_whom := with_whom;
         Memories.what_happened := what_happened;
         Memories.experience_type := experience_type;
         Memories.timestamp := timestamp;
         Memories.duration_seconds := duration_seconds;
         Memories.emotion_primary := emotion_primary;
         Memories.emotion_intensity := emotion_intensity;
         Memories.emotion_why := emotion_why;
         Memories.emotion_secondary :=
           match emotion_secondary with Some l => l | None => [] end;
         Memories.importance_to_me := importance_to_me;
         Memories.importance_reasons := importance_reasons;
         Memories.modalities := modalities;
         Memories.text_content := text_content;
         Memories.visual_path := visual_path;
         Memories.audio_path := audio_path;
         Memories.video_path := video_path;
         Memories.patterns_extracted :=
           match patterns_extracted with Some l => l | None => [] end;
         Memories.insights :=
           match insights with Some l => l | None => [] end;
         Memories.privacy_realm := privacy_realm;
         Memories.session_id := session_id;
         Memories.is_breakthrough := is_breakthrough;
         Memories.is_celebration := is_celebration;
         Memories.is_milestone := is_milestone;
         Memories.our_moment_tag :=
           match our_moment_tag with Some l => l | None => [] end;
         Memories.created_at := clock w;
         Memories.updated_at := clock w;
         Memories.accessed_count := 0;
         Memories.last_accessed := None;
         Memories.should_forget := false |} in
    put_postgres
      {| accepting := accepting pg;
         memories := (memories pg ++ [row])%list;
         sessions := sessions pg |} ;;;
    ret {| Created.memory_id := Memories.memory_id row;
           Created.interface := interface;
           Created.context := context;
           Created.what_happened := what_happened;
           Created.experience_type := experience_type;
           Created.emotion_primary := emotion_primary;
           Created.emotion_intensity := emotion_intensity;
           Created.importance_to_me := importance_to_me;
           Created.timestamp := timestamp;
           Created.created_at := Memories.created_at row;
           Created.modalities := modalities;
           Created.privacy_realm := privacy_realm;
           Created.session_id := session_id |}.

Definition has_id (memory_id : UUID) (r : Memories.row) : bool :=
  N.eqb (Memories.memory_id r) memory_id.

(** The UPDATE of the access counter, then the SELECT ... WHERE
    memory_id = $1; [fetchrow] gives the first row or [None]. *)
Definition get_memory (memory_id : UUID) : M (option Memories.row) :=
  get_connection ;;;
  w <- get_world ;;
  let pg := postgres w in
  let touched :=
    update_where (has_id memory_id) (Memories.touch (clock w)) (memories pg) in
  put_postgres
    {| accepting := accepting pg; memories := touched;
       sessions := sessions pg |} ;;;
  ret (find (has_id memory_id) touched).

(** WHERE memory_id = $1 AND should_forget = FALSE *)
Definition forgettable (memory_id : UUID) (r : Memories.row) : bool :=
  has_id memory_id r && negb (Memories.should_forget r).

Definition soft_delete_memory (memory_id : UUID) : M bool :=
  get_connection ;;;
  w <- get_world ;;
  let pg := postgres w in
  let result :=
    option_map Memories.memory_id
               (find (forgettable memory_id) (memories pg)) in
  put_postgres
    {| accepting := accepting pg;
       memories := update_where (forgettable memory_id)
                                (Memories.forget (clock w)) (memories pg);
       sessions := sessions pg |} ;;;
  ret (is_some result).

(** One conjunct of a WHERE clause that is only there when [o] is. *)
Definition clause {A} (o : option A) (test : A -> bool) : bool :=
  match o with
  | Some a => test a
  | None => true
  end.

(** The WHERE clause [list_memories] and [count_memories] build. *)
Definition where_sql (filters : ListFilters.t) (r : Memories.row) : bool :=
  negb (Memories.should_forget r)
  && clause (ListFilters.interface filters)
            (fun v => String.eqb (Memories.interface r) v)
  && clause (ListFilters.context filters)
            (fun v => ilike (Memories.context r) ("%" ++ v ++ "%"))
  && clause (ListFilters.emotion_primary filters)
            (fun v => String.eqb (Memories.emotion_primary r) v)
  && clause (ListFilters.experience_type filters)
            (fun v => String.eqb (Memories.experience_type r) v)
  && clause (ListFilters.min_importance filters)
            (fun v => Qle_bool v (Memories.importance_to_me r))
  && clause (ListFilters.with_whom filters)
            (fun v => match Memories.with_whom r with
                      | Some w => ilike w ("%" ++ v ++ "%")
                      | None => false
                      end).

Definition newer_first (x y : Memories.row) : bool :=
  Z.leb (Memories.timestamp y) (Memories.timestamp x).

(** A Python [int] bound to a [bigint] query argument: the driver refuses
    what does not fit in 64 bits. *)
Definition int64 (n : Z) : bool := (- 2 ^ 63 <=? n) && (n <? 2 ^ 63).

(** LIMIT $n [OFFSET $m]: both counts are bound as query arguments, and
    PostgreSQL rejects a negative count. *)
Definition limit_offset {A} (limit offset : Z) (rows : list A) : M (list A) :=
  if negb (int64 limit && int64 offset)
  then raise (ClientError "invalid input for query argument: out of int64 range")
  else if (limit <? 0) || (offset <? 0)
  then raise (ClientError "LIMIT and OFFSET must not be negative")
  else ret (firstn (Z.to_nat limit) (skipn (Z.to_nat offset) rows)).

Definition list_memories (limit offset : Z) (filters : ListFilters.t)
    : M (list Memories.row) :=
  get_connection ;;;
  w <- get_world ;;
  limit_offset limit offset
    (order_by_desc newer_first
       (filter (where_sql filters) (memories (postgres w)))).

Definition count_memories (filters : ListFilters.t) : M Z :=
  get_connection ;;;
  w <- get_world ;;
  ret (Z.of_nat (List.length (filter (where_sql filters) (memories (postgres w))))).

(** WHERE importance_to_me >= $1 [AND interface = $2]
    [AND privacy_realm = $3]: the two optional conjuncts are added under
    Python truthiness. *)
Definition recent_where (min_importance : float)
    (interface privacy_realm : option string) (r : Memories.row) : bool :=
  Qle_bool min_importance (Memories.importance_to_me r)
  && (if truthy interface
      then clause interface (fun v => String.eqb (Memories.interface r) v)
      else true)
  && (if truthy privacy_realm
      then clause privacy_realm
                  (fun v => String.eqb (Memories.privacy_realm r) v)
      else true).

Definition get_recent_memories (limit : Z) (min_importance : float)
    (interface privacy_realm : option string) : M (list Memories.row) :=
  get_connection ;;;
  w <- get_world ;;
  limit_offset limit 0
    (order_by_desc newer_first
       (filter (recent_where min_importance interface privacy_realm)
               (memories (postgres w)))).

(** [init_pool]: a second call only warns.  [asyncpg.create_pool] opens
    its first connections at once, so it raises, before [_pool] is
    assigned, when the server cannot be reached; the [except] clause logs
    and raises again. *)
Definition init_pool : M unit :=
  w <- get_world ;;
  if _pool w then ret tt
  else
    try_except
      (if accepting (postgres w)
       then fun w => (Return tt, with_pool true w)
       else raise (ClientError "could not connect to server"))
      (fun e => raise e).

(** [close_pool] *)
Definition close_pool : M unit :=
  w <- get_world ;;
  if _pool w then fun w => (Return tt, with_pool false w)
  else ret tt.

(** [shutdown] *)
Definition shutdown : M unit := close_pool.

End database_service.

(** ** vector_service.py *)

Module VectorResult.
(** One element of the list [search_text_embeddings] returns. *)
Record t := {
  memory_id : UUID;
  score : float;
  metadata : Payload
}.
End VectorResult.

Module vector_service.

Definition put_qdrant (q : Qdrant) : M unit :=
  fun w => (Return tt, with_qdrant q w).

Definition with_points (points : list PointStruct) (q : Qdrant) : Qdrant :=
  {| reachable := reachable q; similarity := similarity q;
     text_points := points; placement := placement q |}.

(** A call on the client reaches the server or fails in the client. *)
Definition connected : M Qdrant :=
  w <- get_world ;;
  if reachable (qdrant w) then ret (qdrant w)
  else raise (ClientError "Qdrant is unreachable").

(** [_client.upsert(collection_name=COLLECTION_TEXT, points=[point])]:
    a point with the same id is replaced where it is, a new one goes where
    the server places it. *)
Definition client_upsert (point : PointStruct) : M unit :=
  q <- connected ;;
  let same p := N.eqb (id p) (id point) in
  put_qdrant
    (with_points
       (if existsb same (text_points q)
        then map (fun p => if same p then point else p) (text_points q)
        else
          let k := placement q point (text_points q) in
          (firstn k (text_points q) ++ point :: skipn k (text_points q))%list)
       q).

Definition condition_holds (p : Payload) (c : FieldCondition) : bool :=
  match c with
  | MatchValue key value =>
      match payload_get key p with
      | Some (PStr s) => String.eqb s value
      | _ => false
      end
  | RangeGte key gte =>
      match payload_get key p with
      | Some (PNum x) => Qle_bool gte x
      | _ => false
      end
  end.

Definition filter_holds (f : Filter) (p : Payload) : bool :=
  match f with
  | Some must => forallb (condition_holds p) must
  | None => true
  end.

Definition higher_first (x y : ScoredPoint) : bool :=
  Qle_bool (hit_score y) (hit_score x).

Definition scored (q : Qdrant) (query_vector : ndarray) (p : PointStruct)
    : ScoredPoint :=
  {| hit_id := id p;
     hit_score := similarity q query_vector (vector p);
     hit_payload := payload p |}.

(** [_client.search(collection_name=COLLECTION_TEXT, query_vector, limit,
    query_filter, with_payload=True)]: the [limit] best points among those
    that pass the filter, best first; points of equal score come in the
    server's own order of enumeration, whatever that is. *)
Definition client_search (query_vector : ndarray) (limit : Z)
    (query_filter : Filter) : M (list ScoredPoint) :=
  q <- connected ;;
  ret (firstn (Z.to_nat limit)
         (order_by_desc higher_first
            (map (scored q query_vector)
               (filter (fun p => filter_holds query_filter (payload p))
                       (text_points q))))).

(** [_client.delete(collection_name=COLLECTION_TEXT,
    points_selector=[point_id])] *)
Definition client_delete (point_id : UUID) : M unit :=
  q <- connected ;;
  put_qdrant
    (with_points
       (filter (fun p => negb (N.eqb (id p) point_id)) (text_points q)) q).

Definition store_text_embedding (memory_id : UUID) (embedding : ndarray)
    (metadata : option Payload) : M unit :=
  w <- get_world ;;
  if _client w then
    let point :=
      {| id := memory_id;
         vector := embedding;
         payload := match metadata with Some d => d | None => [] end |} in
    client_upsert point
  else
    raise (RuntimeError
             "Qdrant client not initialized. Call init_vector_client() first.").

Definition search_text_embeddings (query_embedding : ndarray) (limit : Z)
    (interface privacy_realm : option string) (min_importance : option float)
    : M (list VectorResult.t) :=
  w <- get_world ;;
  if _client w then
    let filter_conditions :=
      ((match interface with
        | Some v => if truthy interface then [MatchValue "interface" v] else []
        | None => []
        end)
       ++ (match privacy_realm with
           | Some v =>
               if truthy privacy_realm then [MatchValue "privacy_realm" v]
               else []
           | None => []
           end)
       ++ (match min_importance with
           | Some x => [RangeGte "importance_to_me" x]
           | None => []
           end))%list in
    let search_filter :=
      match filter_conditions with
      | [] => None
      | _ :: _ => Some filter_conditions
      end in
    results <- client_search query_embedding limit search_filter ;;
    ret (map (fun hit =>
                {| VectorResult.memory_id := hit_id hit;
                   VectorResult.score := hit_score hit;
                   VectorResult.metadata := hit_payload hit |})
             results)
  else
    raise (RuntimeError "Qdrant client not initialized").

Definition delete_memory_vectors (memory_id : UUID) : M unit :=
  w <- get_world ;;
  if _client w then
    try_except (client_delete memory_id) (fun e => ret tt)
  else
    raise (RuntimeError "Qdrant client not initialized").

(** [init_vector_client]: a second call only warns.  The client object is
    assigned to [_client] first and the connection is tested afterwards,
    with [get_collections]. *)
Definition init_vector_client : M unit :=
  w <- get_world ;;
  if _client w then ret tt
  else
    (fun w => (Return tt, with_client true w)) ;;;
    connected ;;;
    ret tt.

(** [shutdown] *)
Definition shutdown : M unit :=
  w <- get_world ;;
  if _client w then fun w => (Return tt, with_client false w)
  else ret tt.

End vector_service.

(** ** server.py *)

Definition in_unit_interval (x : float) : bool :=
  Qle_bool 0 x && Qle_bool x 1.

Module MemoryCreate.
Record t := {
  interface : string;
  context : string;
  with_whom : option string;
  what_happened : string;
  experience_type : string;
  duration_seconds : option Z;
  emotion_primary : string;
  emotion_intensity : float;
  emotion_why : option string;
  emotion_secondary : option (list string);
  importance_to_me : float;
  importance_reasons : list string;
  text_content : string;
  visual_path : option string;
  audio_path : option string;
  video_path : option string;
  patterns_extracted : option (list string);
  insights : option (list string);
  privacy_realm : string;
  session_id : option UUID;
  is_breakthrough : option bool;
  is_celebration : option bool;
  is_milestone : option bool;
  our_moment_tag : option (list string)
}.

(** The constraints the model declares: [ge=0.0, le=1.0] on
    [emotion_intensity] and on [importance_to_me].  Every other field is
    a plain [str], [int], list or Optional of these. *)
Definition validate (m : t) : bool :=
  in_unit_interval (emotion_intensity m)
  && in_unit_interval (importance_to_me m).
End MemoryCreate.

Module MemoryResponse.
Record t := {
  memory_id : UUID;
  interface : string;
  context : string;
  what_happened : string;
  experience_type : string;
  emotion_primary : string;
  emotion_intensity : float;
  importance_to_me : float;
  timestamp : datetime;
  created_at : datetime;
  modalities : list string;
  privacy_realm : string
}.
End MemoryResponse.

Module MemorySearch.
Record t := {
  query : string;
  interface : option string;
  experience_type : option string;
  emotion : option string;
  min_importance : option float;
  privacy_realm : option string;
  limit : Z
}.

(** [min_importance]: ge=0.0, le=1.0 when given; [limit]: ge=1, le=100. *)
Definition validate (s : t) : bool :=
  match min_importance s with
  | Some x => in_unit_interval x
  | None => true
  end
  && (1 <=? limit s) && (limit s <=? 100).
End MemorySearch.

Module SearchResult.
(** One element of ["results"] in the answer of [search_memories]. *)
Record t := {
  memory_id : UUID;
  score : float;
  interface : string;
  context : string;
  what_happened : string;
  experience_type : string;
  emotion_primary : string;
  emotion_intensity : float;
  importance_to_me : float;
  timestamp : datetime;
  created_at : datetime;
  modalities : list string;
  privacy_realm : string
}.
End SearchResult.

Module server.

(** What FastAPI does before it calls an endpoint with a request body: the
    body is validated against its pydantic model, and a body that fails is
    answered with 422 without the endpoint being run. *)
Definition request {A B} (validate : A -> bool) (endpoint : A -> M B)
    (body : A) : M B :=
  if validate body then endpoint body
  else raise (RequestValidationError "body").

Definition internal_error {A} (what : string) (e : Exception) : M A :=
  raise (HTTPException HTTP_500_INTERNAL_SERVER_ERROR (what ++ str e)).

(** [except HTTPException: raise], then [except Exception as e]. *)
Definition reraise_http {A} (what : string) (e : Exception) : M A :=
  match e with
  | HTTPException _ _ => raise e
  | _ => internal_error what e
  end.

Fixpoint dict_get {V} (key : string) (d : list (string * V)) : option V :=
  match d with
  | [] => None
  | (k, v) :: d' => if String.eqb k key then Some v else dict_get key d'
  end.

(** Step 2 of [create_memory]: the call of
    [database_service.create_memory] with the fields of the request. *)
Definition save_to_postgres (memory : MemoryCreate.t) : M Created.t :=
  database_service.create_memory
    (MemoryCreate.interface memory)
    (MemoryCreate.context memory)
    (MemoryCreate.what_happened memory)
    (MemoryCreate.experience_type memory)
    (MemoryCreate.emotion_primary memory)
    (MemoryCreate.emotion_intensity memory)
    (MemoryCreate.importance_to_me memory)
    (MemoryCreate.importance_reasons memory)
    (MemoryCreate.text_content memory)
    (MemoryCreate.session_id memory)
    (MemoryCreate.with_whom memory)
    (MemoryCreate.emotion_why memory)
    (MemoryCreate.emotion_secondary memory)
    (MemoryCreate.duration_seconds memory)
    (MemoryCreate.visual_path memory)
    (MemoryCreate.audio_path memory)
    (MemoryCreate.video_path memory)
    (MemoryCreate.patterns_extracted memory)
    (MemoryCreate.insights memory)
    (MemoryCreate.privacy_realm memory)
    (MemoryCreate.is_breakthrough memory)
    (MemoryCreate.is_celebration memory)
    (MemoryCreate.is_milestone memory)
    (MemoryCreate.our_moment_tag memory).

(** Step 3 of [create_memory]: the payload stored with the vector. *)
Definition metadata (memory : MemoryCreate.t) (db_memory : Created.t)
    : Payload :=
  [ ("interface", PStr (MemoryCreate.interface memory));
    ("experience_type", PStr (MemoryCreate.experience_type memory));
    ("emotion_primary", PStr (MemoryCreate.emotion_primary memory));
    ("emotion_intensity", PNum (MemoryCreate.emotion_intensity memory));
    ("importance_to_me", PNum (MemoryCreate.importance_to_me memory));
    ("privacy_realm", PStr (MemoryCreate.privacy_realm memory));
    ("timestamp", PStr (isoformat (Created.timestamp db_memory))) ].

Definition MemoryResponse_of_created (db_memory : Created.t)
    : MemoryResponse.t :=
  {| MemoryResponse.memory_id := Created.memory_id db_memory;
     MemoryResponse.interface := Created.interface db_memory;
     MemoryResponse.context := Created.context db_memory;
     MemoryResponse.what_happened := Created.what_happened db_memory;
     MemoryResponse.experience_type := Created.experience_type db_memory;
     MemoryResponse.emotion_primary := Created.emotion_primary db_memory;
     MemoryResponse.emotion_intensity := Created.emotion_intensity db_memory;
     MemoryResponse.importance_to_me := Created.importance_to_me db_memory;
     MemoryResponse.timestamp := Created.timestamp db_memory;
     MemoryResponse.created_at := Created.created_at db_memory;
     MemoryResponse.modalities := Created.modalities db_memory;
     MemoryResponse.privacy_realm := Created.privacy_realm db_memory |}.

Definition create_memory (memory : MemoryCreate.t) : M MemoryResponse.t :=
  try_except
    (embeddings <-
       embedding_service.generate_memory_embeddings
         (MemoryCreate.text_content memory)
         (MemoryCreate.visual_path memory)
         (MemoryCreate.audio_path memory) ;;
     db_memory <- save_to_postgres memory ;;
     let memory_id := Created.memory_id db_memory in
     match dict_get "text_sbert" embeddings with
     | Some embedding =>
         vector_service.store_text_embedding
           memory_id embedding (Some (metadata memory db_memory))
     | None => ret tt
     end ;;;
     ret (MemoryResponse_of_created db_memory))
    (internal_error "Failed to create memory: ").

(** The body of the [for result in vector_results] loop. *)
Definition hydrate (result : VectorResult.t) : M (option SearchResult.t) :=
  memory <- database_service.get_memory (VectorResult.memory_id result) ;;
  ret (match memory with
       | Some memory =>
           Some {| SearchResult.memory_id := Memories.memory_id memory;
                   SearchResult.score := VectorResult.score result;
                   SearchResult.interface := Memories.interface memory;
                   SearchResult.context := Memories.context memory;
                   SearchResult.what_happened := Memories.what_happened memory;
                   SearchResult.experience_type :=
                     Memories.experience_type memory;
                   SearchResult.emotion_primary :=
                     Memories.emotion_primary memory;
                   SearchResult.emotion_intensity :=
                     Memories.emotion_intensity memory;
                   SearchResult.importance_to_me :=
                     Memories.importance_to_me memory;
                   SearchResult.timestamp := Memories.timestamp memory;
                   SearchResult.created_at := Memories.created_at memory;
                   SearchResult.modalities := Memories.modalities memory;
                   SearchResult.privacy_realm :=
                     Memories.privacy_realm memory |}
       | None => None
       end).

Definition search_memories (search : MemorySearch.t)
    : M (list SearchResult.t) :=
  try_except
    (query_embedding <-
       embedding_service.get_text_embedding_sbert (MemorySearch.query search) ;;
     vector_results <-
       vector_service.search_text_embeddings
         query_embedding
         (MemorySearch.limit search)
         (MemorySearch.interface search)
         (MemorySearch.privacy_realm search)
         (MemorySearch.min_importance search) ;;
     for_each hydrate vector_results)
    (internal_error "Search failed: ").

(** [GET /api/v5/recent-memories]: the rows of
    [database_service.get_recent_memories], each with the score 1.0, and
    their number. *)
Definition get_recent_memories (limit : Z) (min_importance : float)
    (interface privacy_realm : option string)
    : M (list (Memories.row * float) * Z) :=
  try_except
    (memories <-
       database_service.get_recent_memories limit min_importance interface
                                            privacy_realm ;;
     let results := map (fun memory => (memory, 1%Q)) memories in
     ret (results, Z.of_nat (List.length results)))
    (internal_error "Failed to get recent memories: ").

Definition if_truthy (o : option string) : option string :=
  if truthy o then o else None.

(** [GET /api/v5/memories/list]: the page and the total count. *)
Definition list_memories (limit offset : Z)
    (interface context_filter emotion experience_type : option string)
    (min_importance : option float) (with_whom : option string)
    : M (list Memories.row * Z) :=
  try_except
    (let filters :=
       {| ListFilters.interface := if_truthy interface;
          ListFilters.context := if_truthy context_filter;
          ListFilters.emotion_primary := if_truthy emotion;
          ListFilters.experience_type := if_truthy experience_type;
          ListFilters.min_importance := min_importance;
          ListFilters.with_whom := if_truthy with_whom |} in
     memories <- database_service.list_memories limit offset filters ;;
     total_count <- database_service.count_memories filters ;;
     ret (memories, total_count))
    (internal_error "List memories failed: ").

Definition MemoryResponse_of_row (memory : Memories.row) : MemoryResponse.t :=
  {| MemoryResponse.memory_id := Memories.memory_id memory;
     MemoryResponse.interface := Memories.interface memory;
     MemoryResponse.context := Memories.context memory;
     MemoryResponse.what_happened := Memories.what_happened memory;
     MemoryResponse.experience_type := Memories.experience_type memory;
     MemoryResponse.emotion_primary := Memories.emotion_primary memory;
     MemoryResponse.emotion_intensity := Memories.emotion_intensity memory;
     MemoryResponse.importance_to_me := Memories.importance_to_me memory;
     MemoryResponse.timestamp := Memories.timestamp memory;
     MemoryResponse.created_at := Memories.created_at memory;
     MemoryResponse.modalities := Memories.modalities memory;
     MemoryResponse.privacy_realm := Memories.privacy_realm memory |}.

Definition get_memory (memory_id : UUID) : M MemoryResponse.t :=
  try_except
    (memory <- database_service.get_memory memory_id ;;
     match memory with
     | None =>
         raise (HTTPException HTTP_404_NOT_FOUND
                              ("Memory not found: " ++ uuid_str memory_id))
     | Some memory => ret (MemoryResponse_of_row memory)
     end)
    (reraise_http "Failed to get memory: ").

(** [DELETE /api/v5/memories/{memory_id}]: returns [None] (204). *)
Definition delete_memory (memory_id : UUID) : M unit :=
  try_except
    (deleted <- database_service.soft_delete_memory memory_id ;;
     if negb deleted then
       raise (HTTPException HTTP_404_NOT_FOUND
                ("Memory " ++ uuid_str memory_id
                   ++ " not found or already deleted"))
     else
       vector_service.delete_memory_vectors memory_id ;;;
       ret tt)
    (reraise_http "Failed to delete memory: ").

(** [lifespan], before the [yield]: the three services are initialised in
    this order. *)
Definition lifespan_startup (pretrained : option SentenceTransformer)
    : M unit :=
  database_service.init_pool ;;;
  vector_service.init_vector_client ;;;
  embedding_service.init_embedding_models pretrained.

(** [lifespan], after the [yield]. *)
Definition lifespan_shutdown : M unit :=
  database_service.close_pool ;;;
  vector_service.shutdown ;;;
  embedding_service.shutdown.

End server.

(** ** A small deployment to run the services on *)

Module Scenario.

(** A similarity for the collection and a model for the embedding
    service; any other choice would do. *)
Definition dot (a b : ndarray) : float :=
  fold_right Qplus 0%Q (map (fun p => Qmult (fst p) (snd p)) (combine a b)).

Definition model : SentenceTransformer :=
  fun text => Some [inject_Z (Z.of_nat (String.length text)); 1%Q].

(** Everything is up, nothing is stored yet. *)
Definition w0 : World :=
  {| _pool := true;
     postgres := {| accepting := true; memories := []; sessions := [] |};
     _client := true;
     qdrant := {| reachable := true; similarity := dot; text_points := [];
                  placement := fun _ points => List.length points |};
     _sbert_model := Some model;
     clock := 1000;
     next_uuid := 1%N |}.

Definition memory (what_happened text : string) (intensity : float)
    (privacy : string) : MemoryCreate.t :=
  {| MemoryCreate.interface := "vscode";
     MemoryCreate.context := "pairing";
     MemoryCreate.with_whom := Some "Steve";
     MemoryCreate.what_happened := what_happened;
     MemoryCreate.experience_type := "coding";
     MemoryCreate.duration_seconds := None;
     MemoryCreate.emotion_primary := "joy";
     MemoryCreate.emotion_intensity := intensity;
     MemoryCreate.emotion_why := None;
     MemoryCreate.emotion_secondary := None;
     MemoryCreate.importance_to_me := 1 # 2;
     MemoryCreate.importance_reasons := ["first"];
     MemoryCreate.text_content := text;
     MemoryCreate.visual_path := None;
     MemoryCreate.audio_path := None;
     MemoryCreate.video_path := None;
     MemoryCreate.patterns_extracted := None;
     MemoryCreate.insights := None;
     MemoryCreate.privacy_realm := privacy;
     MemoryCreate.session_id := None;
     MemoryCreate.is_breakthrough := Some false;
     MemoryCreate.is_celebration := Some false;
     MemoryCreate.is_milestone := Some false;
     MemoryCreate.our_moment_tag := None |}.

Definition search (query : string) (limit : Z) : MemorySearch.t :=
  {| MemorySearch.query := query;
     MemorySearch.interface := None;
     MemorySearch.experience_type := None;
     MemorySearch.emotion := None;
     MemorySearch.min_importance := None;
     MemorySearch.privacy_realm := None;
     MemorySearch.limit := limit |}.

(** Events outside the service: Qdrant goes down or comes back, time
    passes. *)
Definition set_reachable (b : bool) (w : World) : World :=
  with_qdrant {| reachable := b; similarity := similarity (qdrant w);
                 text_points := text_points (qdrant w);
                 placement := placement (qdrant w) |} w.

Definition later (dt : Z) (w : World) : World :=
  {| _pool := _pool w; postgres := postgres w; _client := _client w;
     qdrant := qdrant w; _sbert_model := _sbert_model w;
     clock := clock w + dt; next_uuid := next_uuid w |}.

(** One memory was created (its identifier is 1, its session is 2). *)
Definition w1 : World :=
  snd (server.create_memory
         (memory "we wrote the search" "hello" (1 # 2) "public") w0).

(** ... and then deleted while Qdrant was down. *)
Definition w2 : World :=
  set_reachable true (snd (server.delete_memory 1%N (set_reachable false w1))).

(** ... or deleted with everything up. *)
Definition w_deleted : World := snd (server.delete_memory 1%N w1).

(** A second memory with the same text, a minute after the first. *)
Definition w_twice : World :=
  snd (server.create_memory
         (memory "we wrote it again" "hello" (1 # 2) "public")
         (later 60 w1)).

(** The same deployment over an index that enumerates its points by
    another rule, for one that lists the newest point first. *)
Definition over (place : PointStruct -> list PointStruct -> nat) (w : World)
    : World :=
  with_qdrant {| reachable := reachable (qdrant w);
                 similarity := similarity (qdrant w);
                 text_points := text_points (qdrant w);
                 placement := place |} w.

Definition w0_front : World := over (fun _ _ => 0%nat) w0.

(** Over that index too, a second memory with the same text a minute after
    the first. *)
Definition w_twice_front : World :=
  snd (server.create_memory
         (memory "we wrote it again" "hello" (1 # 2) "public")
         (later 60
            (snd (server.create_memory
                    (memory "we wrote the search" "hello" (1 # 2) "public")
                    w0_front)))).

(** Two memories with the same text, created within one reading of the
    clock. *)
Definition twins (w : World) : World :=
  snd (server.create_memory
         (memory "we wrote it again" "hello" (1 # 2) "public")
         (snd (server.create_memory
                 (memory "we wrote the search" "hello" (1 # 2) "public") w))).

End Scenario.

(** The relational store can be used: the pool was initialised and the
    server answers. *)
Definition db_ready (w : World) : Prop :=
  _pool w = true /\ accepting (postgres w) = true.

(** Between [w] and [w'] nothing changed outside the rows of the relational
    store and the source of identifiers. *)
Definition unchanged_but_rows (w w' : World) : Prop :=
  _pool w' = _pool w
  /\ accepting (postgres w') = accepting (postgres w)
  /\ _client w' = _client w
  /\ qdrant w' = qdrant w
  /\ _sbert_model w' = _sbert_model w
  /\ clock w' = clock w.

(** The relational store has a row under this identifier. *)
Definition known (rows : list Memories.row) (memory_id : UUID) : bool :=
  existsb (database_service.has_id memory_id) rows.

(** What ranks a search result, and a hit of the index: identifier and
    similarity score. *)
Definition ranked (r : SearchResult.t) : UUID * float :=
  (SearchResult.memory_id r, SearchResult.score r).

Definition ranked_hit (h : VectorResult.t) : UUID * float :=
  (VectorResult.memory_id h, VectorResult.score h).


(** The order in the words of the specification, for a result [r1] listed
    before a result [r2]: strictly higher score first, and of two equal
    scores the more recent timestamp first. *)
Definition spec_ranked_before (r1 r2 : SearchResult.t) : bool :=
  negb (Qle_bool (SearchResult.score r1) (SearchResult.score r2))
  || (Qeq_bool (SearchResult.score r1) (SearchResult.score r2)
      && (SearchResult.timestamp r2 <? SearchResult.timestamp r1)).

(** The embedding service cannot embed [text]: the model was never loaded,
    or its [encode] raises on this text. *)
Definition embedding_unavailable (text : string) (w : World) : Prop :=
  _sbert_model w = None
  \/ exists model, _sbert_model w = Some model /\ model text = None.

(** The vector index cannot be written: the client was never made, or the
    server does not answer. *)
Definition index_unavailable (w : World) : Prop :=
  _client w = false \/ reachable (qdrant w) = false.

(** Every point of the index has a row in the relational store under its
    identifier. *)
Definition index_backed (w : World) : Prop :=
  forall p, In p (text_points (qdrant w)) ->
            known (memories (postgres w)) (id p) = true.

(** The index has a point under this identifier. *)
Definition indexed (q : Qdrant) (memory_id : UUID) : bool :=
  existsb (fun p => N.eqb (id p) memory_id) (text_points q).

(** What [get_memory] may change, whatever its outcome: the access
    bookkeeping of rows, nothing else. *)
Definition only_accessed (w w' : World) : Prop :=
  map Memories.without_access (memories (postgres w'))
  = map Memories.without_access (memories (postgres w))
  /\ sessions (postgres w') = sessions (postgres w)
  /\ accepting (postgres w') = accepting (postgres w)
  /\ _pool w' = _pool w
  /\ _client w' = _client w
  /\ qdrant w' = qdrant w
  /\ _sbert_model w' = _sbert_model w
  /\ clock w' = clock w
  /\ next_uuid w' = next_uuid w.

(** * Properties *)

(** ** Running the services *)

Ltac run :=
  unfold bind, ret, raise, get_world, put_world, try_except, utcnow, uuid4,
    database_service.put_postgres, vector_service.put_qdrant.

Lemma with_postgres_same (w : World) : with_postgres (postgres w) w = w.
Proof. destruct w; reflexivity. Qed.

Lemma with_qdrant_same (w : World) : with_qdrant (qdrant w) w = w.
Proof. destruct w; reflexivity. Qed.

Lemma postgres_eta (pg : Postgres) :
  {| accepting := accepting pg; memories := memories pg;
     sessions := sessions pg |} = pg.
Proof. destruct pg; reflexivity. Qed.

Lemma get_connection_ready (w : World) :
  db_ready w -> database_service.get_connection w = (Return tt, w).
Proof.
  intros [Hpool Hacc]. unfold database_service.get_connection. run.
  now rewrite Hpool, Hacc.
Qed.

Lemma get_connection_not_ready (w : World) :
  ~ db_ready w ->
  exists e, database_service.get_connection w = (Raise e, w).
Proof.
  intros Hn. unfold database_service.get_connection. run.
  destruct (_pool w) eqn:Hpool; [destruct (accepting (postgres w)) eqn:Hacc|].
  - exfalso. apply Hn. now split.
  - eauto.
  - eauto.
Qed.

(** ** Tables *)

Section Tables.
Context {A : Type}.
Implicit Types (p : A -> bool) (f : A -> A) (l : list A).

Lemma update_where_none p f l :
  (forall r, In r l -> p r = false) -> update_where p f l = l.
Proof.
  induction l as [|r l IH]; intros H; simpl; [reflexivity|].
  rewrite (H r (or_introl eq_refl)). f_equal. apply IH.
  intros r' Hr'. apply H. now right.
Qed.

Lemma in_update_where p f l r' :
  In r' (update_where p f l) ->
  exists r, In r l /\ r' = (if p r then f r else r).
Proof.
  unfold update_where. rewrite in_map_iff. intros [r [E Hin]]. eauto.
Qed.

Lemma find_none_iff p l :
  find p l = None <-> (forall r, In r l -> p r = false).
Proof.
  split.
  - intros H r. now apply find_none.
  - induction l as [|r l IH]; intros H; simpl; [reflexivity|].
    rewrite (H r (or_introl eq_refl)). apply IH.
    intros r' Hr'. apply H. now right.
Qed.
End Tables.

Lemma has_id_iff (memory_id : UUID) (r : Memories.row) :
  database_service.has_id memory_id r = true <-> Memories.memory_id r = memory_id.
Proof. unfold database_service.has_id. apply N.eqb_eq. Qed.

Lemma forgettable_iff (memory_id : UUID) (r : Memories.row) :
  database_service.forgettable memory_id r = true <->
  Memories.memory_id r = memory_id /\ Memories.should_forget r = false.
Proof.
  unfold database_service.forgettable.
  rewrite andb_true_iff, has_id_iff, negb_true_iff. reflexivity.
Qed.

Lemma forgettable_forget (memory_id : UUID) (now : datetime) (r : Memories.row) :
  database_service.forgettable memory_id (Memories.forget now r) = false.
Proof.
  unfold database_service.forgettable. simpl. apply andb_false_r.
Qed.

(** After the UPDATE of [soft_delete_memory] every row under the identifier
    is tombstoned. *)
Lemma tombstoned_after_forget (memory_id : UUID) (now : datetime)
    (rows : list Memories.row) (r : Memories.row) :
  In r (update_where (database_service.forgettable memory_id)
                     (Memories.forget now) rows) ->
  Memories.memory_id r = memory_id ->
  Memories.should_forget r = true.
Proof.
  intros Hin Hid. apply in_update_where in Hin. destruct Hin as [r0 [_ ->]].
  destruct (database_service.forgettable memory_id r0) eqn:E; [reflexivity|].
  destruct (Memories.should_forget r0) eqn:Ef; [reflexivity|].
  assert (database_service.forgettable memory_id r0 = true)
    by (apply forgettable_iff; split; assumption).
  congruence.
Qed.

(** What [soft_delete_memory] does when the store can be used. *)
Lemma soft_delete_memory_run (memory_id : UUID) (w : World) :
  db_ready w ->
  database_service.soft_delete_memory memory_id w =
  (Return (existsb (database_service.forgettable memory_id)
                   (memories (postgres w))),
   with_postgres
     {| accepting := accepting (postgres w);
        memories := update_where (database_service.forgettable memory_id)
                                 (Memories.forget (clock w))
                                 (memories (postgres w));
        sessions := sessions (postgres w) |} w).
Proof.
  intros Hr. unfold database_service.soft_delete_memory.
  unfold bind at 1. rewrite (get_connection_ready w Hr). run.
  repeat f_equal.
  induction (memories (postgres w)) as [|r l IH]; simpl; [reflexivity|].
  destruct (database_service.forgettable memory_id r); simpl; [reflexivity|].
  exact IH.
Qed.

(** ** C5 *)

(** C5.  [soft_delete_memory] answers [True] exactly when a row with that
    identifier exists whose [should_forget] is still false; when it answers
    [False] (identifier missing, or row already tombstoned) nothing at all
    has changed and no exception is raised.  The table after the call is
    the table before it, row by row: a live row under the identifier is
    still there, with [should_forget] now true, the time of the call as
    [updated_at] and its other columns as they were, and every other row
    (another identifier, or already tombstoned) is untouched.  So every row
    with that identifier is tombstoned afterwards, and a second call
    answers [False] as a no-op.  Sessions and the vector index are not
    touched. *)
Theorem soft_delete_memory_only_once (memory_id : UUID) (w : World) :
  db_ready w ->
  exists (deleted : bool) (w' : World),
    database_service.soft_delete_memory memory_id w = (Return deleted, w')
    /\ (deleted = true <->
        exists r, In r (memories (postgres w))
                  /\ Memories.memory_id r = memory_id
                  /\ Memories.should_forget r = false)
    /\ (deleted = false -> w' = w)
    /\ (forall r, In r (memories (postgres w')) ->
                  Memories.memory_id r = memory_id ->
                  Memories.should_forget r = true)
    /\ (forall r, In r (memories (postgres w)) ->
                  Memories.should_forget r = true ->
                  In r (memories (postgres w')))
    /\ Forall2
         (fun r r' =>
            (Memories.memory_id r = memory_id
             /\ Memories.should_forget r = false
             /\ r' = Memories.forget (clock w) r)
            \/ ((Memories.memory_id r <> memory_id
                 \/ Memories.should_forget r = true)
                /\ r' = r))
         (memories (postgres w)) (memories (postgres w'))
    /\ (forall r, In r (memories (postgres w)) ->
                  Memories.memory_id r = memory_id ->
                  Memories.should_forget r = false ->
                  exists r',
                    In r' (memories (postgres w'))
                    /\ Memories.memory_id r' = memory_id
                    /\ Memories.should_forget r' = true
                    /\ Memories.updated_at r' = clock w
                    /\ Memories.without_access r'
                       = Memories.without_access
                           (Memories.forget (clock w) r)
                    /\ Memories.text_content r' = Memories.text_content r
                    /\ Memories.accessed_count r' = Memories.accessed_count r)
    /\ sessions (postgres w') = sessions (postgres w)
    /\ qdrant w' = qdrant w
    /\ database_service.soft_delete_memory memory_id w' = (Return false, w').
Proof.
  intros Hr. rewrite (soft_delete_memory_run memory_id w Hr).
  set (p := database_service.forgettable memory_id).
  set (rows := memories (postgres w)).
  set (w' := with_postgres _ w).
  assert (Hr' : db_ready w') by (destruct Hr; split; assumption).
  assert (Hgone : forall r, In r (memories (postgres w')) -> p r = false).
  { intros r' Hin. simpl in Hin. apply in_update_where in Hin.
    destruct Hin as [r [_ ->]]. destruct (p r) eqn:E; [|exact E].
    apply forgettable_forget. }
  exists (existsb p rows), w'.
  split; [reflexivity|]. split; [split|].
  - intros He. apply existsb_exists in He. destruct He as [r [Hin Hp]].
    apply forgettable_iff in Hp. exists r. tauto.
  - intros [r [Hin Hp]]. apply existsb_exists. exists r. split; [exact Hin|].
    apply forgettable_iff. tauto.
  - split.
    { intros He. unfold w'. rewrite update_where_none.
      + fold rows. unfold rows. rewrite postgres_eta. apply with_postgres_same.
      + intros r Hin. destruct (p r) eqn:E; [|reflexivity].
        assert (existsb p rows = true) by (apply existsb_exists; eauto).
        congruence. }
    split.
    { intros r Hin Hid. simpl in Hin.
      now apply (tombstoned_after_forget memory_id (clock w) rows r). }
    split.
    { intros r Hin Hf. simpl. unfold update_where. apply in_map_iff.
      exists r. split; [|exact Hin].
      assert (E : p r = false).
      { unfold p, database_service.forgettable. rewrite Hf.
        apply andb_false_r. }
      now rewrite E. }
    split.
    { simpl. fold rows. clear. induction rows as [|r rows IH]; simpl.
      - constructor.
      - constructor; [|exact IH].
        destruct (p r) eqn:E.
        + left. apply forgettable_iff in E. tauto.
        + right. split; [|reflexivity].
          destruct (N.eq_dec (Memories.memory_id r) memory_id) as [Hid|Hid];
            [|now left].
          right. destruct (Memories.should_forget r) eqn:Hf; [reflexivity|].
          assert (p r = true) by (apply forgettable_iff; tauto). congruence. }
    split.
    { intros r Hin Hid Hf. exists (Memories.forget (clock w) r).
      split; [|repeat split; assumption].
      simpl. unfold update_where. apply in_map_iff.
      exists r. split; [|exact Hin].
      assert (E : p r = true) by (apply forgettable_iff; tauto).
      now rewrite E. }
    split; [reflexivity|]. split; [reflexivity|].
    rewrite (soft_delete_memory_run memory_id w' Hr'). fold p.
    assert (E : existsb p (memories (postgres w')) = false).
    { destruct (existsb p (memories (postgres w'))) eqn:E; [|reflexivity].
      apply existsb_exists in E. destruct E as [r [Hin Hp]].
      rewrite (Hgone r Hin) in Hp. discriminate. }
    rewrite E. f_equal.
    rewrite update_where_none by exact Hgone.
    rewrite postgres_eta. apply with_postgres_same.
Qed.

Lemma soft_delete_memory_only_once_witness :
  db_ready Scenario.w1
  /\ exists w',
       database_service.soft_delete_memory 1%N Scenario.w1 = (Return true, w')
       /\ (exists r', In r' (memories (postgres w'))
                      /\ Memories.memory_id r' = 1%N
                      /\ Memories.should_forget r' = true
                      /\ Memories.text_content r' = "hello")
       /\ database_service.soft_delete_memory 1%N w' = (Return false, w').
Proof.
  assert (Hr : db_ready Scenario.w1) by (split; reflexivity).
  split; [exact Hr|].
  destruct (soft_delete_memory_only_once 1%N Scenario.w1 Hr)
    as (deleted & w' & Hrun & _ & _ & _ & _ & _ & Hrow & _ & _ & Hagain).
  exists w'. split; [|split; [|exact Hagain]].
  - rewrite Hrun. f_equal. f_equal.
    assert (E : fst (database_service.soft_delete_memory 1%N Scenario.w1)
                = Return true) by (vm_compute; reflexivity).
    rewrite Hrun in E. simpl in E. congruence.
  - edestruct Hrow as (r' & Hin & Hid & Hf & _ & _ & Ht & _).
    + left. reflexivity.
    + reflexivity.
    + reflexivity.
    + exists r'. repeat split; assumption.
Defined.

(** ** C9 *)

Lemma delete_memory_vectors_unreachable (memory_id : UUID) (w : World) :
  _client w = true -> reachable (qdrant w) = false ->
  vector_service.delete_memory_vectors memory_id w = (Return tt, w).
Proof.
  intros Hc Hu. unfold vector_service.delete_memory_vectors,
    vector_service.client_delete, vector_service.connected.
  run. now rewrite Hc, Hu.
Qed.

(** C9.  When the row is live and the point delete sent to Qdrant fails, the
    endpoint still answers 204 (it returns [None]), the row is tombstoned in
    the relational store, and the stale point stays in the index. *)
Theorem delete_memory_survives_vector_failure (memory_id : UUID) (w : World) :
  db_ready w ->
  _client w = true ->
  reachable (qdrant w) = false ->
  (exists r, In r (memories (postgres w))
             /\ Memories.memory_id r = memory_id
             /\ Memories.should_forget r = false) ->
  exists w',
    server.delete_memory memory_id w = (Return tt, w')
    /\ (exists r, In r (memories (postgres w'))
                  /\ Memories.memory_id r = memory_id)
    /\ (forall r, In r (memories (postgres w')) ->
                  Memories.memory_id r = memory_id ->
                  Memories.should_forget r = true)
    /\ qdrant w' = qdrant w.
Proof.
  intros Hr Hc Hu Hlive.
  pose proof (soft_delete_memory_run memory_id w Hr) as Hrun.
  assert (Hd : existsb (database_service.forgettable memory_id)
                       (memories (postgres w)) = true).
  { destruct Hlive as [r [Hin Hp]]. apply existsb_exists.
    exists r. split; [exact Hin|]. now apply forgettable_iff. }
  rewrite Hd in Hrun.
  match type of Hrun with _ = (_, ?x) => set (w' := x) in * end.
  assert (Hu' : reachable (qdrant w') = false) by exact Hu.
  exists w'. repeat split.
  - unfold server.delete_memory, try_except, bind. rewrite Hrun. simpl.
    rewrite (delete_memory_vectors_unreachable memory_id w' Hc Hu').
    reflexivity.
  - destruct Hlive as [r [Hin [Hid Hf]]].
    exists (Memories.forget (clock w) r). split; [|exact Hid].
    simpl. unfold update_where. apply in_map_iff.
    exists r. split; [|exact Hin].
    assert (E : database_service.forgettable memory_id r = true)
      by (apply forgettable_iff; tauto).
    now rewrite E.
  - intros r Hin Hid. simpl in Hin.
    now apply (tombstoned_after_forget memory_id (clock w)
                 (memories (postgres w)) r).
Qed.

Lemma delete_memory_survives_vector_failure_witness :
  exists w',
    server.delete_memory 1%N (Scenario.set_reachable false Scenario.w1)
    = (Return tt, w')
    /\ qdrant w' = qdrant (Scenario.set_reachable false Scenario.w1).
Proof.
  destruct (delete_memory_survives_vector_failure
              1%N (Scenario.set_reachable false Scenario.w1))
    as (w' & Hrun & _ & _ & Hq).
  - split; reflexivity.
  - reflexivity.
  - reflexivity.
  - eexists. split; [left; reflexivity|]. split; reflexivity.
  - exists w'. split; assumption.
Defined.

(** ** C8 *)

Lemma get_text_embedding_sbert_unavailable (text : string) (w : World) :
  embedding_unavailable text w ->
  exists e, embedding_service.get_text_embedding_sbert text w = (Raise e, w).
Proof.
  unfold embedding_service.get_text_embedding_sbert. run.
  intros [Hnone | [model [Hsome Hfail]]].
  - rewrite Hnone. eauto.
  - rewrite Hsome, Hfail. eauto.
Qed.

(** C8.  When the embedding provider is not ready, or its call fails,
    [create_memory] stops with the 500 answer that carries the embedding
    service's exception, and the world is the one it started in: neither
    the relational store nor the vector index was written. *)
Theorem create_memory_aborts_without_embedding
    (memory : MemoryCreate.t) (w : World) :
  embedding_unavailable (MemoryCreate.text_content memory) w ->
  exists e,
    embedding_service.get_text_embedding_sbert
      (MemoryCreate.text_content memory) w = (Raise e, w)
    /\ server.create_memory memory w =
       (Raise (HTTPException HTTP_500_INTERNAL_SERVER_ERROR
                             ("Failed to create memory: " ++ str e)), w).
Proof.
  intros Hu.
  destruct (get_text_embedding_sbert_unavailable _ _ Hu) as [e He].
  exists e. split; [exact He|].
  unfold server.create_memory, try_except,
    embedding_service.generate_memory_embeddings.
  unfold bind at 1. unfold bind at 1. rewrite He. reflexivity.
Qed.

Lemma create_memory_aborts_without_embedding_witness :
  let w := Scenario.later 5 Scenario.w1 in
  let w_unloaded :=
    {| _pool := _pool w; postgres := postgres w; _client := _client w;
       qdrant := qdrant w; _sbert_model := None; clock := clock w;
       next_uuid := next_uuid w |} in
  exists e,
    server.create_memory
      (Scenario.memory "we met again" "hello again" (1 # 2) "public")
      w_unloaded
    = (Raise (HTTPException 500 ("Failed to create memory: " ++ str e)),
       w_unloaded).
Proof.
  intros w w_unloaded.
  destruct (create_memory_aborts_without_embedding
              (Scenario.memory "we met again" "hello again" (1 # 2) "public")
              w_unloaded) as [e [_ He]].
  - left. reflexivity.
  - exists e. exact He.
Defined.

(** ** C7 *)

Lemma in_unit_interval_iff (x : float) :
  in_unit_interval x = true <-> (0 <= x <= 1)%Q.
Proof.
  unfold in_unit_interval. rewrite andb_true_iff, !Qle_bool_iff. reflexivity.
Qed.

(** C7, as the code has it.  A creation request whose emotion intensity or
    importance lies outside [0,1] is answered with a validation error
    before the endpoint runs, and the world is unchanged. *)
Theorem create_memory_rejects_scalars_out_of_range
    (memory : MemoryCreate.t) (w : World) :
  ~ (0 <= MemoryCreate.emotion_intensity memory <= 1)%Q
  \/ ~ (0 <= MemoryCreate.importance_to_me memory <= 1)%Q ->
  server.request MemoryCreate.validate server.create_memory memory w
  = (Raise (RequestValidationError "body"), w).
Proof.
  intros H. unfold server.request.
  assert (E : MemoryCreate.validate memory = false).
  { unfold MemoryCreate.validate. apply andb_false_iff.
    destruct H as [H | H]; [left | right];
      apply not_true_is_false; intros Ht; apply H;
      now apply in_unit_interval_iff. }
  rewrite E. reflexivity.
Qed.

Lemma create_memory_rejects_scalars_out_of_range_witness :
  server.request MemoryCreate.validate server.create_memory
    (Scenario.memory "we wrote the search" "hello" (3 # 2) "public")
    Scenario.w0
  = (Raise (RequestValidationError "body"), Scenario.w0).
Proof.
  apply create_memory_rejects_scalars_out_of_range.
  left. simpl. intros [_ H]. revert H. apply Qlt_not_le. reflexivity.
Defined.

(** C7 as stated fails: a request with an empty narrative and the privacy
    realm [private_us] (the value the model's own description names; it is
    not in {public, private}) passes validation, is written to the
    relational store and is answered with the created memory. *)
Lemma create_memory_accepts_empty_text_and_private_us :
  let memory := Scenario.memory "" "" (1 # 2) "private_us" in
  exists response w',
    server.request MemoryCreate.validate server.create_memory memory
                   Scenario.w0 = (Return response, w')
    /\ MemoryCreate.text_content memory = ""
    /\ MemoryCreate.what_happened memory = ""
    /\ MemoryResponse.privacy_realm response = "private_us"
    /\ map Memories.text_content (memories (postgres w')) = [""]
    /\ map Memories.privacy_realm (memories (postgres w')) = ["private_us"].
Proof.
  intros memory.
  destruct (server.request MemoryCreate.validate server.create_memory memory
                           Scenario.w0) as [o w'] eqn:E.
  assert (Eo : o = fst (server.request MemoryCreate.validate
                          server.create_memory memory Scenario.w0))
    by (rewrite E; reflexivity).
  assert (Ew : w' = snd (server.request MemoryCreate.validate
                           server.create_memory memory Scenario.w0))
    by (rewrite E; reflexivity).
  vm_compute in Eo. subst o.
  eexists. exists w'. split; [reflexivity|].
  repeat split; rewrite Ew; vm_compute; reflexivity.
Qed.

(** ** C10 *)

(** C10.  Two search requests that differ at most in [emotion] and
    [experience_type] are answered alike and leave the same world. *)
Theorem search_memories_ignores_emotion_and_experience_type
    (s1 s2 : MemorySearch.t) (w : World) :
  MemorySearch.query s1 = MemorySearch.query s2 ->
  MemorySearch.interface s1 = MemorySearch.interface s2 ->
  MemorySearch.min_importance s1 = MemorySearch.min_importance s2 ->
  MemorySearch.privacy_realm s1 = MemorySearch.privacy_realm s2 ->
  MemorySearch.limit s1 = MemorySearch.limit s2 ->
  server.request MemorySearch.validate server.search_memories s1 w
  = server.request MemorySearch.validate server.search_memories s2 w.
Proof.
  intros Hq Hi Hm Hp Hl.
  unfold server.request, MemorySearch.validate, server.search_memories.
  rewrite Hq, Hi, Hm, Hp, Hl. reflexivity.
Qed.

Lemma search_memories_ignores_emotion_and_experience_type_witness :
  let s1 := Scenario.search "hello" 5 in
  let s2 :=
    {| MemorySearch.query := "hello";
       MemorySearch.interface := None;
       MemorySearch.experience_type := Some "coding";
       MemorySearch.emotion := Some "sadness";
       MemorySearch.min_importance := None;
       MemorySearch.privacy_realm := None;
       MemorySearch.limit := 5 |} in
  server.request MemorySearch.validate server.search_memories s1 Scenario.w1
  = server.request MemorySearch.validate server.search_memories s2 Scenario.w1.
Proof.
  intros s1 s2.
  apply (search_memories_ignores_emotion_and_experience_type
           s1 s2 Scenario.w1); reflexivity.
Defined.

(** ** ORDER BY *)

Section OrderBy.
Context {A : Type} (ge : A -> A -> bool).
Hypothesis ge_total : forall x y, ge x y = false -> ge y x = true.
Hypothesis ge_trans :
  forall x y z, ge x y = true -> ge y z = true -> ge x z = true.

Lemma insert_desc_perm (x : A) (l : list A) :
  Permutation (x :: l) (insert_desc ge x l).
Proof.
  induction l as [|y l IH]; simpl; [reflexivity|].
  destruct (ge x y); [reflexivity|].
  rewrite perm_swap. now apply perm_skip.
Qed.

Lemma order_by_desc_perm (l : list A) : Permutation l (order_by_desc ge l).
Proof.
  induction l as [|x l IH]; simpl; [reflexivity|].
  rewrite <- insert_desc_perm. now apply perm_skip.
Qed.

Lemma in_order_by_desc (x : A) (l : list A) :
  In x (order_by_desc ge l) <-> In x l.
Proof.
  split; apply Permutation_in;
    [symmetry|]; apply order_by_desc_perm.
Qed.

Lemma length_order_by_desc (l : list A) :
  List.length (order_by_desc ge l) = List.length l.
Proof. symmetry. apply Permutation_length, order_by_desc_perm. Qed.

Lemma insert_desc_descending (x : A) (l : list A) :
  descending ge l -> descending ge (insert_desc ge x l).
Proof.
  unfold descending.
  induction l as [|y l IH]; intros Hs; simpl.
  - constructor; constructor.
  - inversion Hs as [|? ? Hl Hy]; subst.
    destruct (ge x y) eqn:E.
    + constructor; [exact Hs|]. constructor; [exact E|].
      eapply Forall_impl; [|exact Hy]. intros z Hz. simpl in Hz.
      now apply ge_trans with y.
    + constructor; [now apply IH|].
      apply (Permutation_Forall (insert_desc_perm x l)).
      constructor; [now apply ge_total | exact Hy].
Qed.

Lemma order_by_desc_descending (l : list A) :
  descending ge (order_by_desc ge l).
Proof.
  induction l as [|x l IH]; simpl.
  - constructor.
  - now apply insert_desc_descending.
Qed.

Lemma in_firstn (n : nat) (l : list A) (x : A) :
  In x (firstn n l) -> In x l.
Proof.
  revert l. induction n as [|n IH]; intros l; simpl; [tauto|].
  destruct l as [|y l]; simpl; [tauto|].
  intros [E | Hin]; [now left | right; now apply IH].
Qed.

Lemma descending_firstn (n : nat) (l : list A) :
  descending ge l -> descending ge (firstn n l).
Proof.
  unfold descending. revert l.
  induction n as [|n IH]; intros l Hs; simpl; [constructor|].
  destruct l as [|x l]; [constructor|].
  inversion Hs as [|? ? Hl Hx]; subst.
  constructor; [now apply IH|].
  rewrite Forall_forall in *. intros y Hy. apply Hx.
  eapply in_firstn. exact Hy.
Qed.
End OrderBy.

(** ** Creating a record *)

Lemma create_session_frame (interface : string) (w : World)
    (o : Outcome UUID) (w' : World) :
  database_service.create_session interface w = (o, w') ->
  unchanged_but_rows w w'
  /\ memories (postgres w') = memories (postgres w)
  /\ (forall s, o = Return s -> db_ready w').
Proof.
  unfold database_service.create_session, database_service.get_connection.
  run. simpl.
  destruct (_pool w) eqn:Hp; [destruct (accepting (postgres w)) eqn:Ha|];
    simpl; rewrite ?Hp, ?Ha;
    [destruct (existsb _ _)|..];
    intros E; injection E as <- <-; simpl;
    (split; [repeat split; simpl; congruence|]); (split; [reflexivity|]);
    intros s Hs; try discriminate; split; simpl; congruence.
Qed.

(** The write of step 2, when it succeeds: one row is added at the end of
    [memories], under an identifier no row had, live, and with the fields of
    the request; nothing but the relational store and the source of
    identifiers has changed. *)
Lemma save_to_postgres_returns (memory : MemoryCreate.t) (w : World)
    (db_memory : Created.t) (w2 : World) :
  server.save_to_postgres memory w = (Return db_memory, w2) ->
  unchanged_but_rows w w2
  /\ db_ready w2
  /\ find (database_service.has_id (Created.memory_id db_memory))
          (memories (postgres w)) = None
  /\ exists row,
       memories (postgres w2) = (memories (postgres w) ++ [row])%list
       /\ Memories.memory_id row = Created.memory_id db_memory
       /\ Memories.should_forget row = false
       /\ Memories.text_content row = MemoryCreate.text_content memory
       /\ Memories.what_happened row = MemoryCreate.what_happened memory
       /\ Memories.emotion_primary row = MemoryCreate.emotion_primary memory
       /\ Memories.emotion_intensity row = MemoryCreate.emotion_intensity memory
       /\ Memories.importance_to_me row = MemoryCreate.importance_to_me memory.
Proof.
  unfold server.save_to_postgres, database_service.create_memory.
  unfold bind at 1. unfold uuid4 at 1.
  unfold bind at 1. unfold utcnow at 1.
  unfold bind at 1.
  set (w1 := with_next_uuid _ w).
  destruct (match MemoryCreate.session_id memory with
            | Some s => ret s
            | None => database_service.create_session
                        (MemoryCreate.interface memory)
            end w1) as [os ws] eqn:Es.
  assert (Hs : unchanged_but_rows w ws
               /\ memories (postgres ws) = memories (postgres w)
               /\ (forall s, os = Return s -> _pool ws = true ->
                             accepting (postgres ws) = true -> db_ready ws)).
  { destruct (MemoryCreate.session_id memory) as [s|].
    - unfold ret in Es. injection Es as <- <-.
      split; [repeat split|]. split; [reflexivity|].
      intros; split; assumption.
    - apply create_session_frame in Es. destruct Es as [Hf [Hm Hr]].
      split; [exact Hf|]. split; [exact Hm|]. intros; split; assumption. }
  destruct Hs as [Hframe [Hmem _]].
  destruct os as [session_id|e]; [|discriminate].
  unfold bind at 1. unfold database_service.get_connection.
  run. simpl.
  destruct (_pool ws) eqn:Hp; [|discriminate].
  destruct (accepting (postgres ws)) eqn:Ha; [|discriminate].
  simpl.
  destruct (existsb _ (memories (postgres ws))) eqn:Hex; [discriminate|].
  intros E. injection E as <- <-. simpl.
  split.
  { destruct Hframe as (H1 & H2 & H3 & H4 & H5 & H6).
    repeat split; simpl; congruence. }
  split; [split; simpl; congruence|].
  split.
  { rewrite <- Hmem. apply find_none_iff. intros r Hin.
    destruct (database_service.has_id (next_uuid w) r) eqn:Hid; [|reflexivity].
    assert (existsb (fun r0 => (Memories.memory_id r0 =? next_uuid w)%N)
                    (memories (postgres ws)) = true)
      by (apply existsb_exists; exists r; split; assumption).
    congruence. }
  eexists. split; [rewrite Hmem; reflexivity|].
  repeat split.
Qed.

(** ** Reading records *)

Lemma has_id_touch (memory_id : UUID) (now : datetime) (r : Memories.row) :
  database_service.has_id memory_id (Memories.touch now r)
  = database_service.has_id memory_id r.
Proof. reflexivity. Qed.

Lemma find_touched (memory_id : UUID) (now : datetime) (l : list Memories.row) :
  find (database_service.has_id memory_id)
       (update_where (database_service.has_id memory_id)
                     (Memories.touch now) l)
  = option_map (Memories.touch now)
               (find (database_service.has_id memory_id) l).
Proof.
  induction l as [|r l IH]; simpl; [reflexivity|].
  destruct (database_service.has_id memory_id r) eqn:E.
  - now rewrite has_id_touch, E.
  - now rewrite E.
Qed.

Lemma find_last {A} (p : A -> bool) (l : list A) (x : A) :
  find p l = None -> p x = true -> find p (l ++ [x]) = Some x.
Proof.
  induction l as [|y l IH]; simpl; intros Hn Hp.
  - now rewrite Hp.
  - destruct (p y); [discriminate|]. now apply IH.
Qed.

Lemma get_memory_run (memory_id : UUID) (w : World) :
  db_ready w ->
  database_service.get_memory memory_id w =
  (Return (option_map (Memories.touch (clock w))
                      (find (database_service.has_id memory_id)
                            (memories (postgres w)))),
   with_postgres
     {| accepting := accepting (postgres w);
        memories := update_where (database_service.has_id memory_id)
                                 (Memories.touch (clock w))
                                 (memories (postgres w));
        sessions := sessions (postgres w) |} w).
Proof.
  intros Hr. unfold database_service.get_memory.
  unfold bind at 1. rewrite (get_connection_ready w Hr). run.
  now rewrite find_touched.
Qed.

Lemma newer_first_total (x y : Memories.row) :
  database_service.newer_first x y = false ->
  database_service.newer_first y x = true.
Proof. unfold database_service.newer_first. lia. Qed.

Lemma newer_first_trans (x y z : Memories.row) :
  database_service.newer_first x y = true ->
  database_service.newer_first y z = true ->
  database_service.newer_first x z = true.
Proof. unfold database_service.newer_first. lia. Qed.

Lemma list_memories_run (limit offset : Z) (filters : ListFilters.t)
    (w : World) :
  db_ready w -> 0 <= limit < 2 ^ 63 -> 0 <= offset < 2 ^ 63 ->
  database_service.list_memories limit offset filters w =
  (Return
     (firstn (Z.to_nat limit)
        (skipn (Z.to_nat offset)
           (order_by_desc database_service.newer_first
              (filter (database_service.where_sql filters)
                      (memories (postgres w)))))),
   w).
Proof.
  intros Hr Hl Ho. unfold database_service.list_memories.
  unfold bind at 1. rewrite (get_connection_ready w Hr). run.
  unfold database_service.limit_offset, database_service.int64.
  assert (El : (limit <? 0) = false) by lia.
  assert (Eo : (offset <? 0) = false) by lia.
  assert (Il : ((- 2 ^ 63 <=? limit) && (limit <? 2 ^ 63))%bool = true)
    by (apply andb_true_iff; split; lia).
  assert (Io : ((- 2 ^ 63 <=? offset) && (offset <? 2 ^ 63))%bool = true)
    by (apply andb_true_iff; split; lia).
  rewrite Il, Io, El, Eo. reflexivity.
Qed.

(** ** C2 *)

Lemma store_text_embedding_unavailable (memory_id : UUID)
    (embedding : ndarray) (metadata : option Payload) (w : World) :
  index_unavailable w ->
  exists e,
    vector_service.store_text_embedding memory_id embedding metadata w
    = (Raise e, w).
Proof.
  unfold vector_service.store_text_embedding, vector_service.client_upsert,
    vector_service.connected. run.
  destruct (_client w) eqn:Hc.
  - intros [H | H]; [congruence|]. rewrite H. eauto.
  - eauto.
Qed.

(** C2, as the code has it.  When the embedding was computed and the row
    was written but the vector index cannot be written, [create_memory]
    answers with a 500 error that carries the exception
    [store_text_embedding] raised.  The relational write is not undone: the
    row is in the table, live, with the narrative of the request;
    [get_memory] finds it under its identifier and an unfiltered
    [list_memories] lists it, for every limit that covers the table and
    fits a 64-bit query argument.  The index is as it was. *)
Theorem create_memory_index_failure_keeps_the_row
    (memory : MemoryCreate.t) (w : World)
    (model : SentenceTransformer) (embedding : ndarray)
    (db_memory : Created.t) (w2 : World) :
  _sbert_model w = Some model ->
  model (MemoryCreate.text_content memory) = Some embedding ->
  server.save_to_postgres memory w = (Return db_memory, w2) ->
  index_unavailable w ->
  exists e,
    vector_service.store_text_embedding
      (Created.memory_id db_memory) embedding
      (Some (server.metadata memory db_memory)) w2 = (Raise e, w2)
    /\ server.create_memory memory w =
       (Raise (HTTPException HTTP_500_INTERNAL_SERVER_ERROR
                             ("Failed to create memory: " ++ str e)), w2)
    /\ qdrant w2 = qdrant w
    /\ exists row,
         In row (memories (postgres w2))
         /\ Memories.memory_id row = Created.memory_id db_memory
         /\ Memories.should_forget row = false
         /\ Memories.text_content row = MemoryCreate.text_content memory
         /\ (exists w3,
               database_service.get_memory (Created.memory_id db_memory) w2
               = (Return (Some (Memories.touch (clock w2) row)), w3))
         /\ (forall limit,
               Z.of_nat (List.length (memories (postgres w2))) <= limit ->
               limit < 2 ^ 63 ->
               exists rows,
                 database_service.list_memories limit 0 ListFilters.empty w2
                 = (Return rows, w2)
                 /\ In row rows).
Proof.
  intros Hmodel Hencode Hsave Hdown.
  destruct (save_to_postgres_returns memory w db_memory w2 Hsave)
    as (Hframe & Hready & Hfresh & row & Hrows & Hid & Hlive & Htext & _).
  destruct Hframe as (_ & _ & Hclient & Hqdrant & _ & _).
  assert (Hdown2 : index_unavailable w2).
  { unfold index_unavailable. rewrite Hclient, Hqdrant. exact Hdown. }
  destruct (store_text_embedding_unavailable
              (Created.memory_id db_memory) embedding
              (Some (server.metadata memory db_memory)) w2 Hdown2)
    as [e He].
  exists e. split; [exact He|]. split; [|split; [exact Hqdrant|]].
  - unfold server.create_memory, try_except,
      embedding_service.generate_memory_embeddings,
      embedding_service.get_text_embedding_sbert.
    run. rewrite Hmodel, Hencode, Hsave. simpl. rewrite He. reflexivity.
  - exists row.
    assert (Hin : In row (memories (postgres w2))).
    { rewrite Hrows. apply in_or_app. right. now left. }
    repeat split; try assumption.
    + rewrite (get_memory_run _ w2 Hready). eexists. f_equal. f_equal.
      rewrite Hrows.
      rewrite (find_last _ _ row Hfresh); [reflexivity|].
      now apply has_id_iff.
    + intros limit Hlimit Hfits.
      rewrite (list_memories_run limit 0 ListFilters.empty w2 Hready)
        by lia.
      eexists. split; [reflexivity|].
      simpl skipn. rewrite firstn_all2.
      * apply in_order_by_desc. apply filter_In. split; [exact Hin|].
        unfold database_service.where_sql. simpl. now rewrite Hlive.
      * rewrite length_order_by_desc.
        pose proof (filter_length_le
                      (database_service.where_sql ListFilters.empty)
                      (memories (postgres w2))). lia.
Qed.

Lemma create_memory_index_failure_keeps_the_row_witness :
  let w := Scenario.set_reachable false Scenario.w0 in
  let memory := Scenario.memory "we wrote the search" "hello" (1 # 2) "public" in
  index_unavailable w
  /\ exists e w2,
       server.create_memory memory w =
       (Raise (HTTPException 500 ("Failed to create memory: " ++ str e)), w2).
Proof.
  intros w memory.
  assert (Hdown : index_unavailable w) by (right; reflexivity).
  split; [exact Hdown|].
  edestruct (create_memory_index_failure_keeps_the_row
               memory w Scenario.model) as [e [_ [Hrun _]]].
  - reflexivity.
  - reflexivity.
  - vm_compute. reflexivity.
  - exact Hdown.
  - exists e. eexists. exact Hrun.
Defined.

(** C2 as stated fails: with Qdrant down, the row is written and the caller
    gets an exception (a 500 answer), not a created record. *)
Lemma create_memory_index_failure_raises :
  let w := Scenario.set_reachable false Scenario.w0 in
  let memory := Scenario.memory "we wrote the search" "hello" (1 # 2) "public" in
  exists w',
    server.request MemoryCreate.validate server.create_memory memory w =
    (Raise (HTTPException 500 "Failed to create memory: Qdrant is unreachable"),
     w')
    /\ map Memories.memory_id (memories (postgres w')) = [1%N]
    /\ map Memories.text_content (memories (postgres w')) = ["hello"]
    /\ text_points (qdrant w') = [].
Proof.
  intros w memory. eexists. split; [vm_compute; reflexivity|].
  repeat split.
Qed.

(** ** Search *)

Section SortedLists.
Context {A B : Type} (R : B -> B -> Prop) (f : A -> B).


End SortedLists.




Lemma existsb_find {A} (p : A -> bool) (l : list A) :
  existsb p l = is_some (find p l).
Proof.
  induction l as [|x l IH]; simpl; [reflexivity|].
  destruct (p x); [reflexivity | exact IH].
Qed.

Lemma known_touched (p : Memories.row -> bool) (now : datetime)
    (rows : list Memories.row) (i : UUID) :
  known (update_where p (Memories.touch now) rows) i = known rows i.
Proof.
  unfold known. induction rows as [|r rows IH]; simpl; [reflexivity|].
  rewrite IH. f_equal. destruct (p r); reflexivity.
Qed.

Lemma for_each_cons {A B} (body : A -> M (option B)) (x : A) (xs : list A)
    (w : World) :
  for_each body (x :: xs) w =
  match body x w with
  | (Return o, w1) =>
      match for_each body xs w1 with
      | (Return rest, w2) =>
          (Return (match o with Some b => b :: rest | None => rest end), w2)
      | (Raise e, w2) => (Raise e, w2)
      end
  | (Raise e, w1) => (Raise e, w1)
  end.
Proof.
  simpl. unfold bind, ret. destruct (body x w) as [[o|e] w1]; [|reflexivity].
  destruct (for_each body xs w1) as [[rest|e] w2]; reflexivity.
Qed.

(** The world after the access bookkeeping of [get_memory]. *)
Lemma hydrate_run (h : VectorResult.t) (w : World) :
  db_ready w ->
  exists o w1,
    server.hydrate h w = (Return o, w1)
    /\ db_ready w1
    /\ qdrant w1 = qdrant w
    /\ (forall i, known (memories (postgres w1)) i
                  = known (memories (postgres w)) i)
    /\ match o with
       | Some r =>
           known (memories (postgres w)) (VectorResult.memory_id h) = true
           /\ ranked r = ranked_hit h
       | None =>
           known (memories (postgres w)) (VectorResult.memory_id h) = false
       end.
Proof.
  intros Hr. unfold server.hydrate, bind.
  rewrite (get_memory_run (VectorResult.memory_id h) w Hr). unfold ret.
  eexists. eexists. split; [reflexivity|].
  split; [destruct Hr; split; assumption|].
  split; [reflexivity|].
  split; [intros i; simpl; apply known_touched|].
  unfold known. rewrite existsb_find.
  destruct (find (database_service.has_id (VectorResult.memory_id h))
                 (memories (postgres w))) as [memory|] eqn:Ef; simpl.
  - split; [reflexivity|].
    apply find_some in Ef. destruct Ef as [_ Hid].
    apply has_id_iff in Hid. unfold ranked, ranked_hit. simpl.
    now rewrite Hid.
  - reflexivity.
Qed.

(** The loop of [search_memories] over the hits of the index: it cannot
    fail while the relational store can be used, it keeps exactly the hits
    whose identifier has a row, in their order and with their score, and it
    changes nothing but access bookkeeping. *)
Lemma for_each_hydrate (hits : list VectorResult.t) (w : World) :
  db_ready w ->
  exists results w',
    for_each server.hydrate hits w = (Return results, w')
    /\ db_ready w'
    /\ qdrant w' = qdrant w
    /\ map ranked results
       = filter (fun p => known (memories (postgres w)) (fst p))
                (map ranked_hit hits).
Proof.
  revert w. induction hits as [|h hits IH]; intros w Hr.
  - exists [], w. split; [reflexivity|]. split; [exact Hr|].
    split; reflexivity.
  - destruct (hydrate_run h w Hr) as (o & w1 & Hh & Hr1 & Hq1 & Hk & Ho).
    destruct (IH w1 Hr1) as (rest & w' & Hrest & Hr' & Hq' & Hranked).
    rewrite for_each_cons, Hh, Hrest.
    eexists. exists w'. split; [reflexivity|].
    split; [exact Hr'|]. split; [congruence|].
    assert (Hfilter :
              filter (fun p => known (memories (postgres w1)) (fst p))
                     (map ranked_hit hits)
              = filter (fun p => known (memories (postgres w)) (fst p))
                       (map ranked_hit hits))
      by (apply filter_ext; intros p; apply Hk).
    simpl map. simpl filter. unfold ranked_hit at 1. simpl fst.
    destruct o as [r|].
    + destruct Ho as [Hknown Hrank]. rewrite Hknown. simpl map.
      rewrite Hrank, Hranked, Hfilter. reflexivity.
    + rewrite Ho, Hranked, Hfilter. reflexivity.
Qed.


(** ** C6 *)



(** Hits of equal score are told apart by the index alone.  Whatever rule
    the index enumerates its points by, two memories with the same text that
    were created within one reading of the clock come back with the same
    score and the same timestamp: the answer is not strictly ordered by
    score, and the timestamps decide nothing. *)
Lemma search_twins_under_any_index
    (place : PointStruct -> list PointStruct -> nat) :
  exists r1 r2 w',
    server.request MemorySearch.validate server.search_memories
                   (Scenario.search "hello" 5)
                   (Scenario.twins (Scenario.over place Scenario.w0))
    = (Return [r1; r2], w')
    /\ SearchResult.memory_id r1 <> SearchResult.memory_id r2
    /\ SearchResult.score r1 = SearchResult.score r2
    /\ SearchResult.timestamp r1 = SearchResult.timestamp r2
    /\ spec_ranked_before r1 r2 = false.
Proof.
  assert (Hdone : forall out : Outcome (list SearchResult.t) * World,
             (exists r1 r2,
                 fst out = Return [r1; r2]
                 /\ SearchResult.memory_id r1 <> SearchResult.memory_id r2
                 /\ SearchResult.score r1 = SearchResult.score r2
                 /\ SearchResult.timestamp r1 = SearchResult.timestamp r2
                 /\ spec_ranked_before r1 r2 = false) ->
             exists r1 r2 w',
               out = (Return [r1; r2], w')
               /\ SearchResult.memory_id r1 <> SearchResult.memory_id r2
               /\ SearchResult.score r1 = SearchResult.score r2
               /\ SearchResult.timestamp r1 = SearchResult.timestamp r2
               /\ spec_ranked_before r1 r2 = false).
  { intros [o w'] (r1 & r2 & Ho & H). exists r1, r2, w'.
    simpl in Ho. now rewrite Ho. }
  apply Hdone. clear Hdone. vm_compute.
  destruct (place _ nil) as [|k1]; vm_compute;
    (destruct (place _ (cons _ nil)) as [|[|k2]]; vm_compute;
     eexists; eexists; (split; [reflexivity|]);
     repeat split; intro; discriminate).
Qed.

(** The endpoint does not look at the timestamps: the same two requests, a
    minute apart, over an index that lists its points in the order they
    came and over one that lists the newest first, are answered with the
    older memory first by the one and the newer first by the other. *)
Lemma search_memories_tie_follows_the_index :
  (exists r1 r2 w',
      server.request MemorySearch.validate server.search_memories
                     (Scenario.search "hello" 5) Scenario.w_twice
      = (Return [r1; r2], w')
      /\ SearchResult.score r1 = SearchResult.score r2
      /\ SearchResult.timestamp r1 = 1000
      /\ SearchResult.timestamp r2 = 1060)
  /\ (exists r1 r2 w',
         server.request MemorySearch.validate server.search_memories
                        (Scenario.search "hello" 5) Scenario.w_twice_front
         = (Return [r1; r2], w')
         /\ SearchResult.score r1 = SearchResult.score r2
         /\ SearchResult.timestamp r1 = 1060
         /\ SearchResult.timestamp r2 = 1000).
Proof.
  split; (eexists; eexists; eexists; split; [vm_compute; reflexivity|]);
    repeat split.
Qed.


(** ** C1 *)

(** C1 on a concrete run.  A memory is created and indexed; it is deleted
    while Qdrant is down, so the endpoint answers 204, the row is
    tombstoned and the point stays in the index.  A search then returns the
    tombstoned record. *)
Theorem search_memories_returns_tombstoned_record :
  fst (server.delete_memory 1%N (Scenario.set_reachable false Scenario.w1))
  = Return tt
  /\ map (fun r => (Memories.memory_id r, Memories.should_forget r))
         (memories (postgres Scenario.w2)) = [(1%N, true)]
  /\ map id (text_points (qdrant Scenario.w2)) = [1%N]
  /\ exists results w',
       server.request MemorySearch.validate server.search_memories
                      (Scenario.search "hello" 5) Scenario.w2
       = (Return results, w')
       /\ map SearchResult.memory_id results = [1%N].
Proof.
  split; [vm_compute; reflexivity|].
  split; [vm_compute; reflexivity|].
  split; [vm_compute; reflexivity|].
  eexists. eexists. split; [vm_compute; reflexivity|].
  reflexivity.
Qed.

(** ** C3 *)

(** Retrieving an identifier that has no row is answered with 404. *)
Lemma get_memory_missing_is_not_found (memory_id : UUID) (w : World) :
  db_ready w ->
  known (memories (postgres w)) memory_id = false ->
  exists w',
    server.get_memory memory_id w =
    (Raise (HTTPException HTTP_404_NOT_FOUND
                          ("Memory not found: " ++ uuid_str memory_id)), w').
Proof.
  intros Hr Hk. unfold server.get_memory, try_except, bind.
  rewrite (get_memory_run memory_id w Hr).
  unfold known in Hk. rewrite existsb_find in Hk.
  destruct (find (database_service.has_id memory_id) (memories (postgres w)));
    [discriminate|].
  simpl. eexists. reflexivity.
Qed.

(** C3 on a concrete run.  A memory is created, then deleted through the
    endpoint (204), which tombstones its row; retrieving it afterwards
    answers with the record, where an identifier that was never used is
    answered with 404. *)
Theorem get_memory_after_delete_returns_record :
  fst (server.delete_memory 1%N Scenario.w1) = Return tt
  /\ map (fun r => (Memories.memory_id r, Memories.should_forget r))
         (memories (postgres Scenario.w_deleted)) = [(1%N, true)]
  /\ (exists response,
        fst (server.get_memory 1%N Scenario.w_deleted) = Return response
        /\ MemoryResponse.memory_id response = 1%N)
  /\ fst (server.get_memory 7%N Scenario.w_deleted)
     = Raise (HTTPException 404 "Memory not found: 7").
Proof.
  split; [vm_compute; reflexivity|].
  split; [vm_compute; reflexivity|].
  split; [|vm_compute; reflexivity].
  eexists. split; [vm_compute; reflexivity|]. reflexivity.
Qed.

(** ** C4 *)

(** What holds of [list_memories]: every row of the page is a row of the
    table that is live and passes every filter that was given, and the page
    is in descending order of timestamp. *)
Lemma list_memories_sound (limit offset : Z) (filters : ListFilters.t)
    (w : World) (rows : list Memories.row) (w' : World) :
  database_service.list_memories limit offset filters w = (Return rows, w') ->
  w' = w
  /\ descending database_service.newer_first rows
  /\ forall r, In r rows ->
       In r (memories (postgres w))
       /\ Memories.should_forget r = false
       /\ database_service.where_sql filters r = true.
Proof.
  unfold database_service.list_memories, database_service.get_connection,
    database_service.limit_offset.
  run.
  destruct (_pool w); [|discriminate].
  destruct (accepting (postgres w)); [|discriminate].
  destruct (negb (database_service.int64 limit && database_service.int64 offset));
    [discriminate|].
  destruct ((limit <? 0) || (offset <? 0))%bool; [discriminate|].
  intros E. injection E as <- <-.
  split; [reflexivity|]. split.
  - apply descending_firstn.
    assert (Hs : descending database_service.newer_first
                   (order_by_desc database_service.newer_first
                      (filter (database_service.where_sql filters)
                              (memories (postgres w)))))
      by (apply order_by_desc_descending;
          [exact newer_first_total | exact newer_first_trans]).
    revert Hs. generalize (order_by_desc database_service.newer_first
                             (filter (database_service.where_sql filters)
                                     (memories (postgres w)))).
    generalize (Z.to_nat offset).
    induction n as [|n IH]; intros l Hs; [exact Hs|].
    destruct l as [|x l]; [exact Hs|].
    simpl. apply IH. now inversion Hs.
  - intros r Hin. apply in_firstn in Hin.
    assert (Hin' : In r (order_by_desc database_service.newer_first
                           (filter (database_service.where_sql filters)
                                   (memories (postgres w))))).
    { rewrite <- (firstn_skipn (Z.to_nat offset)). apply in_or_app. now right. }
    apply in_order_by_desc in Hin'. apply filter_In in Hin'.
    destruct Hin' as [Hrow Hwhere]. split; [exact Hrow|].
    split; [|exact Hwhere].
    unfold database_service.where_sql in Hwhere.
    rewrite !andb_true_iff in Hwhere.
    destruct Hwhere as [[[[[[Hlive _] _] _] _] _] _].
    now apply negb_true_iff in Hlive.
Qed.

(** ... and a page that is long enough holds all of them: the live rows
    that pass the filters, each as often as the table has it. *)
Lemma list_memories_complete (limit : Z) (filters : ListFilters.t) (w : World) :
  db_ready w ->
  Z.of_nat (List.length (memories (postgres w))) <= limit < 2 ^ 63 ->
  exists rows,
    database_service.list_memories limit 0 filters w = (Return rows, w)
    /\ Permutation (filter (database_service.where_sql filters)
                           (memories (postgres w)))
                   rows.
Proof.
  intros Hr Hlimit.
  rewrite (list_memories_run limit 0 filters w Hr) by lia.
  eexists. split; [reflexivity|].
  simpl skipn. rewrite firstn_all2.
  - apply order_by_desc_perm.
  - rewrite length_order_by_desc.
    pose proof (filter_length_le (database_service.where_sql filters)
                                 (memories (postgres w))). lia.
Qed.

(** With no filter given, the WHERE clause of [list_memories] is
    [should_forget = FALSE] alone. *)
Lemma where_sql_empty (r : Memories.row) :
  database_service.where_sql ListFilters.empty r
  = negb (Memories.should_forget r).
Proof.
  unfold database_service.where_sql. simpl. now rewrite !andb_true_r.
Qed.

(** C4 on a concrete run.  After the one memory was deleted, the filtered
    listing is empty but the recent listing still returns the tombstoned
    row. *)
Theorem get_recent_memories_lists_tombstoned_record :
  exists row,
    memories (postgres Scenario.w_deleted) = [row]
    /\ Memories.should_forget row = true
    /\ database_service.get_recent_memories 10 0%Q None None Scenario.w_deleted
       = (Return [row], Scenario.w_deleted)
    /\ database_service.list_memories 50 0 ListFilters.empty Scenario.w_deleted
       = (Return [], Scenario.w_deleted).
Proof.
  eexists. split; [vm_compute; reflexivity|].
  split; [reflexivity|].
  split; vm_compute; reflexivity.
Qed.

(** * Further properties of the services *)

(** ** What a successful creation has done *)

Lemma store_text_embedding_returns (memory_id : UUID) (embedding : ndarray)
    (metadata : option Payload) (w w' : World) (u : unit) :
  vector_service.store_text_embedding memory_id embedding metadata w
  = (Return u, w') ->
  _client w = true
  /\ reachable (qdrant w) = true
  /\ postgres w' = postgres w
  /\ _pool w' = _pool w
  /\ _client w' = true
  /\ reachable (qdrant w') = true
  /\ similarity (qdrant w') = similarity (qdrant w)
  /\ _sbert_model w' = _sbert_model w
  /\ (exists p, In p (text_points (qdrant w'))
                /\ id p = memory_id /\ vector p = embedding)
  /\ (forall i, existsb (fun p => N.eqb (id p) i) (text_points (qdrant w)) = true ->
                existsb (fun p => N.eqb (id p) i) (text_points (qdrant w')) = true).
Proof.
  unfold vector_service.store_text_embedding, vector_service.client_upsert,
    vector_service.connected.
  run.
  destruct (_client w) eqn:Hc; [|discriminate].
  destruct (reachable (qdrant w)) eqn:Hu; [|discriminate].
  intros E. injection E as _ <-. simpl.
  repeat split; try assumption.
  - set (point := {| id := memory_id; vector := embedding;
                     payload := match metadata with
                                | Some d => d
                                | None => []
                                end |}).
    exists point. split; [|split; reflexivity].
    destruct (existsb _ (text_points (qdrant w))) eqn:Hex.
    + apply existsb_exists in Hex. destruct Hex as [q [Hin Hq]].
      apply in_map_iff. exists q. split; [|exact Hin].
      simpl in Hq. now rewrite Hq.
    + apply in_or_app. right. now left.
  - intros i Hi. apply existsb_exists in Hi. destruct Hi as [q [Hin Hq]].
    apply existsb_exists.
    destruct (existsb _ (text_points (qdrant w))) eqn:Hex.
    + destruct (N.eqb (id q) memory_id) eqn:Hsame.
      * eexists. split.
        -- apply in_map_iff. exists q. split; [reflexivity|exact Hin].
        -- simpl. rewrite Hsame. simpl. apply N.eqb_eq in Hsame.
           apply N.eqb_eq in Hq. apply N.eqb_eq. congruence.
      * exists q. split; [|exact Hq].
        apply in_map_iff. exists q. split; [|exact Hin].
        simpl. now rewrite Hsame.
    + exists q. split; [|exact Hq].
      rewrite <- (firstn_skipn
                    (placement (qdrant w)
                       {| id := memory_id; vector := embedding;
                          payload := match metadata with
                                     | Some d => d
                                     | None => []
                                     end |}
                       (text_points (qdrant w)))
                    (text_points (qdrant w))) in Hin.
      apply in_app_or in Hin. apply in_or_app.
      destruct Hin as [Hin | Hin]; [now left | right; now right].
Qed.

(** The steps a successful [create_memory] went through. *)
Lemma create_memory_returns (memory : MemoryCreate.t) (w : World)
    (response : MemoryResponse.t) (w' : World) :
  server.create_memory memory w = (Return response, w') ->
  exists embedding db_memory w2,
    embedding_service.get_text_embedding_sbert
      (MemoryCreate.text_content memory) w = (Return embedding, w)
    /\ server.save_to_postgres memory w = (Return db_memory, w2)
    /\ vector_service.store_text_embedding
         (Created.memory_id db_memory) embedding
         (Some (server.metadata memory db_memory)) w2 = (Return tt, w')
    /\ response = server.MemoryResponse_of_created db_memory.
Proof.
  unfold server.create_memory, try_except,
    embedding_service.generate_memory_embeddings.
  unfold bind at 1. unfold bind at 1.
  destruct (embedding_service.get_text_embedding_sbert
              (MemoryCreate.text_content memory) w) as [[embedding|e] w1] eqn:Ee;
    [|discriminate].
  assert (Hw1 : w1 = w).
  { revert Ee. unfold embedding_service.get_text_embedding_sbert. run.
    destruct (_sbert_model w) as [model|]; [|discriminate].
    destruct (model (MemoryCreate.text_content memory)); [|discriminate].
    congruence. }
  subst w1. unfold ret at 1. unfold bind at 1.
  destruct (server.save_to_postgres memory w) as [[db_memory|e] w2] eqn:Es;
    [|discriminate].
  change (server.dict_get "text_sbert" [("text_sbert", embedding)])
    with (Some embedding).
  unfold bind at 1.
  destruct (vector_service.store_text_embedding _ _ _ w2) as [[[]|e] w3] eqn:Ev;
    [|discriminate].
  unfold ret. intros E. injection E as <- <-.
  exists embedding, db_memory, w2. repeat split; assumption.
Qed.

(** The row written by step 2 answers a later read exactly as the creation
    was answered. *)
Lemma save_to_postgres_row (memory : MemoryCreate.t) (w : World)
    (db_memory : Created.t) (w2 : World) :
  server.save_to_postgres memory w = (Return db_memory, w2) ->
  exists row,
    memories (postgres w2) = (memories (postgres w) ++ [row])%list
    /\ server.MemoryResponse_of_row row
       = server.MemoryResponse_of_created db_memory
    /\ Memories.session_id row = Created.session_id db_memory
    /\ Memories.accessed_count row = 0
    /\ Memories.last_accessed row = None
    /\ Memories.should_forget row = false.
Proof.
  unfold server.save_to_postgres, database_service.create_memory.
  unfold bind at 1. unfold uuid4 at 1.
  unfold bind at 1. unfold utcnow at 1.
  unfold bind at 1.
  set (w1 := with_next_uuid _ w).
  destruct (match MemoryCreate.session_id memory with
            | Some s => ret s
            | None => database_service.create_session
                        (MemoryCreate.interface memory)
            end w1) as [os ws] eqn:Es.
  assert (Hs : memories (postgres ws) = memories (postgres w)
               /\ clock ws = clock w).
  { destruct (MemoryCreate.session_id memory) as [s|].
    - unfold ret in Es. injection Es as <- <-. split; reflexivity.
    - apply create_session_frame in Es.
      destruct Es as [(_ & _ & _ & _ & _ & Hclock) [Hm _]]. split; assumption. }
  destruct Hs as [Hmem Hclock].
  destruct os as [session_id|e]; [|discriminate].
  unfold bind at 1. unfold database_service.get_connection.
  run. simpl.
  destruct (_pool ws) eqn:Hp; [|discriminate].
  destruct (accepting (postgres ws)) eqn:Ha; [|discriminate].
  simpl.
  destruct (existsb _ (memories (postgres ws))) eqn:Hex; [discriminate|].
  intros E. injection E as <- <-. simpl.
  eexists. split; [rewrite Hmem; reflexivity|].
  unfold server.MemoryResponse_of_row, server.MemoryResponse_of_created.
  simpl. rewrite Hclock. repeat split.
Qed.

(** ** Create, then read *)

Lemma get_connection_returns (w : World) (u : unit) (w' : World) :
  database_service.get_connection w = (Return u, w') -> db_ready w /\ w' = w.
Proof.
  unfold database_service.get_connection. run.
  destruct (_pool w) eqn:Hp; [|discriminate].
  destruct (accepting (postgres w)) eqn:Ha; [|discriminate].
  intros E. injection E as _ <-. repeat split; assumption.
Qed.

Lemma get_connection_raises (w : World) (e : Exception) (w' : World) :
  database_service.get_connection w = (Raise e, w') ->
  w' = w /\ (exists msg, e = RuntimeError msg \/ e = ClientError msg).
Proof.
  unfold database_service.get_connection. run.
  destruct (_pool w); [destruct (accepting (postgres w))|];
    intros E; [discriminate| |]; injection E as <- <-; eauto.
Qed.

(** X1.  A memory that [create_memory] has answered with is answered by
    [get_memory], under the identifier of that answer, with the very same
    response. *)
Theorem create_memory_then_get_memory (memory : MemoryCreate.t) (w : World)
    (response : MemoryResponse.t) (w1 : World) :
  server.create_memory memory w = (Return response, w1) ->
  exists w2,
    server.get_memory (MemoryResponse.memory_id response) w1
    = (Return response, w2).
Proof.
  intros Hcreate.
  destruct (create_memory_returns memory w response w1 Hcreate)
    as (embedding & db_memory & wa & _ & Hsave & Hstore & ->).
  destruct (save_to_postgres_returns memory w db_memory wa Hsave)
    as (_ & [Hpool Hacc] & Hfresh & _).
  destruct (save_to_postgres_row memory w db_memory wa Hsave)
    as (row & Hrows & Hresp & _).
  destruct (store_text_embedding_returns _ _ _ _ _ _ Hstore)
    as (_ & _ & Hpg & Hpool' & _).
  assert (Hr : db_ready w1) by (split; [congruence | now rewrite Hpg]).
  assert (Hid : Memories.memory_id row = Created.memory_id db_memory)
    by exact (f_equal MemoryResponse.memory_id Hresp).
  change (MemoryResponse.memory_id
            (server.MemoryResponse_of_created db_memory))
    with (Created.memory_id db_memory).
  unfold server.get_memory, try_except, bind.
  rewrite (get_memory_run _ w1 Hr). rewrite Hpg, Hrows.
  rewrite (find_last _ _ row Hfresh) by (now apply has_id_iff).
  simpl option_map. unfold ret. rewrite <- Hresp. eexists. reflexivity.
Qed.

Lemma create_memory_then_get_memory_witness :
  exists response w1 w2,
    server.create_memory
      (Scenario.memory "we wrote the search" "hello" (1 # 2) "public")
      Scenario.w0 = (Return response, w1)
    /\ server.get_memory (MemoryResponse.memory_id response) w1
       = (Return response, w2).
Proof.
  eexists. eexists.
  edestruct (create_memory_then_get_memory
               (Scenario.memory "we wrote the search" "hello" (1 # 2) "public")
               Scenario.w0) as [w2 Hget].
  - vm_compute. reflexivity.
  - exists w2. split; [vm_compute; reflexivity | exact Hget].
Defined.

(** ** Access bookkeeping *)

Lemma without_access_touched (p : Memories.row -> bool) (now : datetime)
    (rows : list Memories.row) :
  map Memories.without_access (update_where p (Memories.touch now) rows)
  = map Memories.without_access rows.
Proof.
  unfold update_where. rewrite map_map. apply map_ext.
  intros r. destruct (p r); reflexivity.
Qed.

(** X2.  Every read of a record through [get_memory] counts: the row that
    is returned has its access counter one above the stored one and the
    time of the read as [last_accessed], a second read returns it two above;
    no other column of any row changes, and rows under other identifiers
    are left as they are. *)
Theorem get_memory_counts_every_read (memory_id : UUID) (w : World)
    (row : Memories.row) :
  db_ready w ->
  find (database_service.has_id memory_id) (memories (postgres w)) = Some row ->
  exists r1 w1 r2 w2,
    database_service.get_memory memory_id w = (Return (Some r1), w1)
    /\ database_service.get_memory memory_id w1 = (Return (Some r2), w2)
    /\ Memories.accessed_count r1 = Memories.accessed_count row + 1
    /\ Memories.accessed_count r2 = Memories.accessed_count row + 2
    /\ Memories.last_accessed r1 = Some (clock w)
    /\ Memories.without_access r1 = Memories.without_access row
    /\ map Memories.without_access (memories (postgres w1))
       = map Memories.without_access (memories (postgres w))
    /\ (forall r, In r (memories (postgres w)) ->
                  Memories.memory_id r <> memory_id ->
                  In r (memories (postgres w1))).
Proof.
  intros Hr Hfind.
  pose proof (get_memory_run memory_id w Hr) as Hget. rewrite Hfind in Hget.
  match type of Hget with _ = (_, ?x) => set (w1 := x) in * end.
  assert (Hr1 : db_ready w1) by (destruct Hr; split; assumption).
  pose proof (get_memory_run memory_id w1 Hr1) as Hget1.
  assert (Hfind1 : find (database_service.has_id memory_id)
                        (memories (postgres w1))
                   = Some (Memories.touch (clock w) row)).
  { simpl. rewrite find_touched, Hfind. reflexivity. }
  rewrite Hfind1 in Hget1.
  eexists. exists w1. eexists. eexists.
  split; [exact Hget|]. split; [exact Hget1|].
  split; [reflexivity|]. split; [simpl; lia|]. split; [reflexivity|].
  split; [reflexivity|]. split.
  - simpl. apply without_access_touched.
  - intros r Hin Hid. simpl. unfold update_where. apply in_map_iff.
    exists r. split; [|exact Hin].
    destruct (database_service.has_id memory_id r) eqn:E; [|reflexivity].
    apply has_id_iff in E. contradiction.
Qed.

Lemma get_memory_counts_every_read_witness :
  db_ready Scenario.w1
  /\ exists r1 w1 r2 w2,
       database_service.get_memory 1%N Scenario.w1 = (Return (Some r1), w1)
       /\ database_service.get_memory 1%N w1 = (Return (Some r2), w2)
       /\ Memories.accessed_count r1 = 1
       /\ Memories.accessed_count r2 = 2.
Proof.
  assert (Hr : db_ready Scenario.w1) by (split; reflexivity).
  split; [exact Hr|].
  edestruct (get_memory_counts_every_read 1%N Scenario.w1)
    as (r1 & w1 & r2 & w2 & H1 & H2 & Hc1 & Hc2 & _).
  - exact Hr.
  - vm_compute. reflexivity.
  - exists r1, w1, r2, w2. repeat split; assumption.
Defined.

(** ** Deleting *)

Lemma existsb_forgettable_false (memory_id : UUID) (rows : list Memories.row) :
  (forall r, In r rows -> Memories.memory_id r = memory_id ->
             Memories.should_forget r = true) ->
  existsb (database_service.forgettable memory_id) rows = false
  /\ update_where (database_service.forgettable memory_id)
                  (Memories.forget 0) rows = rows.
Proof.
  intros H.
  assert (Hp : forall r, In r rows ->
                         database_service.forgettable memory_id r = false).
  { intros r Hin.
    destruct (database_service.forgettable memory_id r) eqn:E; [|reflexivity].
    apply forgettable_iff in E. destruct E as [Hid Hf].
    rewrite (H r Hin Hid) in Hf. discriminate. }
  split.
  - destruct (existsb _ rows) eqn:E; [|reflexivity].
    apply existsb_exists in E. destruct E as [r [Hin Hr]].
    rewrite (Hp r Hin) in Hr. discriminate.
  - now apply update_where_none.
Qed.

(** X3.  Deleting an identifier that has no row, or whose row is already
    tombstoned, is answered with 404 and changes nothing at all: the
    relational store is as it was and no delete is sent to the index, even
    if the index still holds a point under that identifier. *)
Theorem delete_memory_nothing_to_do (memory_id : UUID) (w : World) :
  db_ready w ->
  (forall r, In r (memories (postgres w)) ->
             Memories.memory_id r = memory_id ->
             Memories.should_forget r = true) ->
  server.delete_memory memory_id w =
  (Raise (HTTPException HTTP_404_NOT_FOUND
            ("Memory " ++ uuid_str memory_id ++ " not found or already deleted")),
   w).
Proof.
  intros Hr Hnone.
  destruct (existsb_forgettable_false memory_id _ Hnone) as [Hex _].
  assert (Hp : forall r, In r (memories (postgres w)) ->
                         database_service.forgettable memory_id r = false).
  { intros r Hin.
    destruct (database_service.forgettable memory_id r) eqn:E; [|reflexivity].
    assert (existsb (database_service.forgettable memory_id)
                    (memories (postgres w)) = true)
      by (apply existsb_exists; eauto).
    congruence. }
  unfold server.delete_memory, try_except, bind.
  rewrite (soft_delete_memory_run memory_id w Hr), Hex.
  rewrite (update_where_none _ _ _ Hp), postgres_eta, with_postgres_same.
  reflexivity.
Qed.

Lemma delete_memory_nothing_to_do_witness :
  server.delete_memory 1%N Scenario.w2 =
  (Raise (HTTPException 404 "Memory 1 not found or already deleted"),
   Scenario.w2)
  /\ indexed (qdrant Scenario.w2) 1%N = true.
Proof.
  split; [|reflexivity].
  apply (delete_memory_nothing_to_do 1%N Scenario.w2).
  - split; reflexivity.
  - intros r [<- | []] _. reflexivity.
Defined.

(** The world after the UPDATE of [soft_delete_memory]. *)
Lemma delete_memory_run (memory_id : UUID) (w : World) :
  db_ready w ->
  let w1 :=
    with_postgres
      {| accepting := accepting (postgres w);
         memories := update_where (database_service.forgettable memory_id)
                                  (Memories.forget (clock w))
                                  (memories (postgres w));
         sessions := sessions (postgres w) |} w in
  server.delete_memory memory_id w =
  if existsb (database_service.forgettable memory_id) (memories (postgres w))
  then
    if _client w then
      if reachable (qdrant w) then
        (Return tt,
         with_qdrant
           (vector_service.with_points
              (filter (fun p => negb (N.eqb (id p) memory_id))
                      (text_points (qdrant w)))
              (qdrant w)) w1)
      else (Return tt, w1)
    else
      (Raise (HTTPException
                HTTP_500_INTERNAL_SERVER_ERROR
                "Failed to delete memory: Qdrant client not initialized"), w1)
  else
    (Raise (HTTPException HTTP_404_NOT_FOUND
              ("Memory " ++ uuid_str memory_id
                 ++ " not found or already deleted")), w1).
Proof.
  intros Hr w1.
  unfold server.delete_memory, try_except. unfold bind at 1.
  rewrite (soft_delete_memory_run memory_id w Hr). subst w1.
  unfold vector_service.delete_memory_vectors, vector_service.client_delete,
    vector_service.connected.
  run.
  destruct (existsb _ (memories (postgres w))); simpl; [|reflexivity].
  destruct (_client w); simpl; [|reflexivity].
  destruct (reachable (qdrant w)); reflexivity.
Qed.

(** What a successful [delete_memory] has done. *)
Lemma delete_memory_returns (memory_id : UUID) (w : World) (u : unit)
    (w' : World) :
  server.delete_memory memory_id w = (Return u, w') ->
  db_ready w
  /\ _client w = true
  /\ existsb (database_service.forgettable memory_id) (memories (postgres w))
     = true
  /\ memories (postgres w')
     = update_where (database_service.forgettable memory_id)
                    (Memories.forget (clock w)) (memories (postgres w))
  /\ sessions (postgres w') = sessions (postgres w)
  /\ db_ready w'
  /\ _client w' = true
  /\ _sbert_model w' = _sbert_model w
  /\ reachable (qdrant w') = reachable (qdrant w)
  /\ similarity (qdrant w') = similarity (qdrant w)
  /\ text_points (qdrant w')
     = (if reachable (qdrant w)
        then filter (fun p => negb (N.eqb (id p) memory_id))
                    (text_points (qdrant w))
        else text_points (qdrant w)).
Proof.
  intros Hrun.
  assert (Hr : db_ready w).
  { revert Hrun. unfold server.delete_memory, try_except. unfold bind at 1.
    unfold database_service.soft_delete_memory. unfold bind at 1.
    destruct (database_service.get_connection w) as [[[]|e] w0] eqn:Ec.
    - intros _. now apply get_connection_returns in Ec.
    - apply get_connection_raises in Ec.
      destruct Ec as [_ [msg [-> | ->]]]; discriminate. }
  pose proof (delete_memory_run memory_id w Hr) as Hd. simpl in Hd.
  rewrite Hd in Hrun. clear Hd.
  destruct (existsb _ (memories (postgres w))); [|discriminate].
  destruct (_client w) eqn:Hc; [|discriminate].
  destruct Hr as [Hp Ha].
  destruct (reachable (qdrant w)) eqn:Hu;
    injection Hrun as _ <-; simpl;
    repeat split; try assumption; try reflexivity.
Qed.

(** ** Where search results come from *)

Lemma in_scored_hits (q : Qdrant) (query_vector : ndarray) (limit : nat)
    (keep : PointStruct -> bool) (hit : ScoredPoint) :
  In hit (firstn limit
            (order_by_desc vector_service.higher_first
               (map (vector_service.scored q query_vector)
                    (filter keep (text_points q))))) ->
  exists p, In p (text_points q) /\ keep p = true
            /\ hit = vector_service.scored q query_vector p.
Proof.
  intros Hin. apply in_firstn in Hin. apply in_order_by_desc in Hin.
  apply in_map_iff in Hin. destruct Hin as [p [<- Hp]].
  apply filter_In in Hp. destruct Hp as [Hp Hk]. eauto.
Qed.

Lemma filter_holds_must (must : list FieldCondition) (p : Payload) :
  vector_service.filter_holds
    (match must with [] => None | _ :: _ => Some must end) p = true ->
  forall c, In c must -> vector_service.condition_holds p c = true.
Proof.
  destruct must as [|c0 must]; [intros _ c []|].
  unfold vector_service.filter_holds. intros H c Hin.
  rewrite forallb_forall in H. now apply H.
Qed.

(** What a successful [search_text_embeddings] has returned: at most
    [limit] hits, each the identifier, score and payload of a point of the
    index that passes the three optional conditions. *)
Lemma search_text_embeddings_returns (query_embedding : ndarray) (limit : Z)
    (interface privacy_realm : option string) (min_importance : option float)
    (w : World) (hits : list VectorResult.t) (w' : World) :
  vector_service.search_text_embeddings
    query_embedding limit interface privacy_realm min_importance w
  = (Return hits, w') ->
  w' = w
  /\ _client w = true
  /\ reachable (qdrant w) = true
  /\ forall h, In h hits ->
       exists p,
         In p (text_points (qdrant w))
         /\ VectorResult.memory_id h = id p
         /\ VectorResult.score h
            = similarity (qdrant w) query_embedding (vector p)
         /\ VectorResult.metadata h = payload p
         /\ (forall v, interface = Some v -> v <> "" ->
               payload_get "interface" (payload p) = Some (PStr v))
         /\ (forall v, privacy_realm = Some v -> v <> "" ->
               payload_get "privacy_realm" (payload p) = Some (PStr v))
         /\ (forall m, min_importance = Some m ->
               exists x,
                 payload_get "importance_to_me" (payload p) = Some (PNum x)
                 /\ (m <= x)%Q).
Proof.
  unfold vector_service.search_text_embeddings, vector_service.client_search,
    vector_service.connected.
  run.
  destruct (_client w) eqn:Hc; [|discriminate].
  destruct (reachable (qdrant w)) eqn:Hu; [|discriminate].
  intros E. injection E as <- <-.
  split; [reflexivity|]. split; [reflexivity|]. split; [reflexivity|].
  intros h Hin. apply in_map_iff in Hin. destruct Hin as [hit [<- Hin]].
  apply in_scored_hits in Hin. destruct Hin as [p [Hp [Hkeep ->]]].
  exists p. split; [exact Hp|]. simpl.
  split; [reflexivity|]. split; [reflexivity|]. split; [reflexivity|].
  assert (Heq : forall s v, match payload_get s (payload p) with
                            | Some (PStr s0) => String.eqb s0 v
                            | _ => false
                            end = true ->
                            payload_get s (payload p) = Some (PStr v)).
  { intros s v H. destruct (payload_get s (payload p)) as [[s0|x]|];
      try discriminate. apply String.eqb_eq in H. now subst. }
  assert (Hge : forall s m, match payload_get s (payload p) with
                            | Some (PNum x) => Qle_bool m x
                            | _ => false
                            end = true ->
                            exists x, payload_get s (payload p) = Some (PNum x)
                                      /\ (m <= x)%Q).
  { intros s m H. destruct (payload_get s (payload p)) as [[s0|x]|];
      try discriminate. exists x. split; [reflexivity|].
      now apply Qle_bool_iff. }
  assert (Hne : forall v, v <> "" -> negb (String.eqb v "") = true).
  { intros v Hv. apply negb_true_iff. now apply String.eqb_neq. }
  pose proof (filter_holds_must _ _ Hkeep) as Hall. clear Hkeep.
  repeat split.
  - intros v -> Hv. apply Heq.
    apply (Hall (MatchValue "interface" v)).
    apply in_or_app. left. simpl. rewrite (Hne v Hv). now left.
  - intros v -> Hv. apply Heq.
    apply (Hall (MatchValue "privacy_realm" v)).
    apply in_or_app. right. apply in_or_app. left.
    simpl. rewrite (Hne v Hv). now left.
  - intros m ->. apply Hge.
    apply (Hall (RangeGte "importance_to_me" m)).
    apply in_or_app. right. apply in_or_app. right. now left.
Qed.

Lemma for_each_hydrate_returns (hits : list VectorResult.t) (w : World)
    (results : list SearchResult.t) (w' : World) :
  for_each server.hydrate hits w = (Return results, w') ->
  qdrant w' = qdrant w
  /\ map ranked results
     = filter (fun p => known (memories (postgres w)) (fst p))
              (map ranked_hit hits).
Proof.
  destruct hits as [|h hits].
  - simpl. unfold ret. intros E. injection E as <- <-. split; reflexivity.
  - intros Hrun.
    assert (Hr : db_ready w).
    { revert Hrun. rewrite for_each_cons.
      unfold server.hydrate, database_service.get_memory.
      unfold bind at 1. unfold bind at 1.
      destruct (database_service.get_connection w) as [[[]|e] w0] eqn:Ec.
      - intros _. now apply get_connection_returns in Ec.
      - discriminate. }
    destruct (for_each_hydrate (h :: hits) w Hr)
      as (results0 & w0 & Hrun0 & _ & Hq & Hranked).
    rewrite Hrun0 in Hrun. injection Hrun as <- <-. split; assumption.
Qed.

(** The steps a successful [search_memories] went through. *)
Lemma search_memories_returns (search : MemorySearch.t) (w : World)
    (results : list SearchResult.t) (w' : World) :
  server.search_memories search w = (Return results, w') ->
  exists query_embedding hits,
    embedding_service.get_text_embedding_sbert (MemorySearch.query search) w
    = (Return query_embedding, w)
    /\ vector_service.search_text_embeddings
         query_embedding (MemorySearch.limit search)
         (MemorySearch.interface search) (MemorySearch.privacy_realm search)
         (MemorySearch.min_importance search) w = (Return hits, w)
    /\ for_each server.hydrate hits w = (Return results, w').
Proof.
  unfold server.search_memories, try_except. unfold bind at 1.
  destruct (embedding_service.get_text_embedding_sbert
              (MemorySearch.query search) w) as [[qe|e] w1] eqn:Ee;
    [|discriminate].
  assert (Hw1 : w1 = w).
  { revert Ee. unfold embedding_service.get_text_embedding_sbert. run.
    destruct (_sbert_model w) as [model|]; [|discriminate].
    destruct (model (MemorySearch.query search)); [|discriminate].
    congruence. }
  subst w1. unfold bind at 1.
  destruct (vector_service.search_text_embeddings _ _ _ _ _ w)
    as [[hits|e] w2] eqn:Ev; [|discriminate].
  destruct (search_text_embeddings_returns _ _ _ _ _ _ _ _ Ev) as [-> _].
  destruct (for_each server.hydrate hits w) as [[rs|e] w3] eqn:Ef;
    [|discriminate].
  intros E. injection E as <- <-.
  exists qe, hits. repeat split; assumption.
Qed.

Lemma in_ranked (r : SearchResult.t) (results : list SearchResult.t)
    (rows : list Memories.row) (hits : list VectorResult.t) :
  map ranked results
  = filter (fun p => known rows (fst p)) (map ranked_hit hits) ->
  In r results ->
  known rows (SearchResult.memory_id r) = true
  /\ exists h, In h hits
               /\ VectorResult.memory_id h = SearchResult.memory_id r
               /\ VectorResult.score h = SearchResult.score r.
Proof.
  intros Hranked Hin.
  assert (Hr : In (ranked r) (map ranked results)) by now apply in_map.
  rewrite Hranked in Hr. apply filter_In in Hr. destruct Hr as [Hh Hk].
  split; [exact Hk|].
  apply in_map_iff in Hh. destruct Hh as [h [Eh Hh]].
  exists h. split; [exact Hh|].
  unfold ranked, ranked_hit in Eh. injection Eh as E1 E2. now split.
Qed.

(** X4.  Every record a search returns is in both stores: it has a row in
    the relational store, and its identifier and score are those of a
    point of the index whose payload passes each filter of the request
    that is given and not empty ([interface], [privacy_realm]) or given
    ([min_importance]).  The filters are tested on the payload copy in the
    index, not on the row. *)
Theorem search_results_are_in_both_stores (search : MemorySearch.t)
    (w : World) (results : list SearchResult.t) (w' : World) :
  server.search_memories search w = (Return results, w') ->
  forall r, In r results ->
    known (memories (postgres w)) (SearchResult.memory_id r) = true
    /\ exists p,
         In p (text_points (qdrant w))
         /\ id p = SearchResult.memory_id r
         /\ (forall v, MemorySearch.interface search = Some v -> v <> "" ->
               payload_get "interface" (payload p) = Some (PStr v))
         /\ (forall v, MemorySearch.privacy_realm search = Some v -> v <> "" ->
               payload_get "privacy_realm" (payload p) = Some (PStr v))
         /\ (forall m, MemorySearch.min_importance search = Some m ->
               exists x,
                 payload_get "importance_to_me" (payload p) = Some (PNum x)
                 /\ (m <= x)%Q).
Proof.
  intros Hrun r Hin.
  destruct (search_memories_returns search w results w' Hrun)
    as (qe & hits & _ & Hsearch & Hloop).
  destruct (for_each_hydrate_returns hits w results w' Hloop) as [_ Hranked].
  destruct (in_ranked r results _ hits Hranked Hin)
    as [Hknown (h & Hh & Hid & _)].
  split; [exact Hknown|].
  destruct (search_text_embeddings_returns _ _ _ _ _ _ _ _ Hsearch)
    as (_ & _ & _ & Hhits).
  destruct (Hhits h Hh) as (p & Hp & Hpid & _ & _ & Hi & Hpr & Hm).
  exists p. split; [exact Hp|]. split; [congruence|].
  repeat split; assumption.
Qed.

Lemma search_results_are_in_both_stores_witness :
  exists results w',
    server.search_memories (Scenario.search "hello" 5) Scenario.w_twice
    = (Return results, w')
    /\ forall r, In r results ->
         known (memories (postgres Scenario.w_twice))
               (SearchResult.memory_id r) = true.
Proof.
  eexists. eexists. split; [vm_compute; reflexivity|].
  intros r Hin.
  edestruct (search_results_are_in_both_stores
               (Scenario.search "hello" 5) Scenario.w_twice) as [Hk _].
  - vm_compute. reflexivity.
  - exact Hin.
  - exact Hk.
Defined.

(** X5.  After [delete_memory] has answered 204 with the index reachable,
    no search returns the deleted identifier. *)
Theorem delete_memory_then_search (memory_id : UUID) (w w' : World)
    (search : MemorySearch.t) (results : list SearchResult.t) (w'' : World) :
  server.delete_memory memory_id w = (Return tt, w') ->
  reachable (qdrant w) = true ->
  server.search_memories search w' = (Return results, w'') ->
  ~ In memory_id (map SearchResult.memory_id results).
Proof.
  intros Hdel Hu Hsearch Hin.
  apply in_map_iff in Hin. destruct Hin as [r [Hid Hin]].
  destruct (delete_memory_returns memory_id w tt w' Hdel)
    as (_ & _ & _ & _ & _ & _ & _ & _ & _ & _ & Hpoints).
  rewrite Hu in Hpoints.
  destruct (search_memories_returns search w' results w'' Hsearch)
    as (qe & hits & _ & Hs & Hloop).
  destruct (for_each_hydrate_returns hits w' results w'' Hloop) as [_ Hranked].
  destruct (in_ranked r results _ hits Hranked Hin) as [_ (h & Hh & Hhid & _)].
  destruct (search_text_embeddings_returns _ _ _ _ _ _ _ _ Hs)
    as (_ & _ & _ & Hhits).
  destruct (Hhits h Hh) as (p & Hp & Hpid & _).
  rewrite Hpoints in Hp. apply filter_In in Hp. destruct Hp as [_ Hne].
  apply negb_true_iff in Hne. apply N.eqb_neq in Hne. congruence.
Qed.

Lemma delete_memory_then_search_witness :
  let w' := snd (server.delete_memory 1%N Scenario.w_twice) in
  let out := server.search_memories (Scenario.search "hello" 5) w' in
  exists results,
    server.delete_memory 1%N Scenario.w_twice = (Return tt, w')
    /\ out = (Return results, snd out)
    /\ ~ In 1%N (map SearchResult.memory_id results).
Proof.
  intros w' out.
  assert (Hdel : server.delete_memory 1%N Scenario.w_twice = (Return tt, w'))
    by (vm_compute; reflexivity).
  assert (Hout : exists results, out = (Return results, snd out))
    by (eexists; vm_compute; reflexivity).
  destruct Hout as [results Hout].
  exists results. split; [exact Hdel|]. split; [exact Hout|].
  apply (delete_memory_then_search 1%N Scenario.w_twice w'
           (Scenario.search "hello" 5) results (snd out) Hdel).
  - reflexivity.
  - exact Hout.
Defined.

(** X6.  After [delete_memory] has answered 204, neither [list_memories]
    nor [count_memories] sees a row under the deleted identifier, whatever
    the filters and the page. *)
Theorem delete_memory_then_list_memories (memory_id : UUID) (w w' : World)
    (limit offset : Z) (filters : ListFilters.t)
    (rows : list Memories.row) (w'' : World) :
  server.delete_memory memory_id w = (Return tt, w') ->
  database_service.list_memories limit offset filters w' = (Return rows, w'') ->
  (forall r, In r rows -> Memories.memory_id r <> memory_id)
  /\ forall r, In r (filter (database_service.where_sql filters)
                            (memories (postgres w'))) ->
               Memories.memory_id r <> memory_id.
Proof.
  intros Hdel Hlist.
  destruct (delete_memory_returns memory_id w tt w' Hdel)
    as (_ & _ & _ & Hrows & _).
  assert (Hlive : forall r, In r (memories (postgres w')) ->
                            Memories.should_forget r = false ->
                            Memories.memory_id r <> memory_id).
  { intros r Hin Hf Hid. rewrite Hrows in Hin.
    rewrite (tombstoned_after_forget memory_id _ _ r Hin Hid) in Hf.
    discriminate. }
  split.
  - intros r Hin.
    destruct (list_memories_sound _ _ _ _ _ _ Hlist) as (-> & _ & Hsound).
    destruct (Hsound r Hin) as (Hrow & Hf & _). now apply Hlive.
  - intros r Hin. apply filter_In in Hin. destruct Hin as [Hrow Hwhere].
    apply Hlive; [exact Hrow|].
    unfold database_service.where_sql in Hwhere.
    rewrite !andb_true_iff in Hwhere.
    destruct Hwhere as [[[[[[Hf _] _] _] _] _] _].
    now apply negb_true_iff in Hf.
Qed.

Lemma delete_memory_then_list_memories_witness :
  let w' := snd (server.delete_memory 1%N Scenario.w_twice) in
  let out := database_service.list_memories 50 0 ListFilters.empty w' in
  exists rows,
    server.delete_memory 1%N Scenario.w_twice = (Return tt, w')
    /\ out = (Return rows, snd out)
    /\ forall r, In r rows -> Memories.memory_id r <> 1%N.
Proof.
  intros w' out.
  assert (Hdel : server.delete_memory 1%N Scenario.w_twice = (Return tt, w'))
    by (vm_compute; reflexivity).
  assert (Hout : exists rows, out = (Return rows, snd out))
    by (eexists; vm_compute; reflexivity).
  destruct Hout as [rows Hout].
  exists rows. split; [exact Hdel|]. split; [exact Hout|].
  apply (delete_memory_then_list_memories 1%N Scenario.w_twice w' 50 0
           ListFilters.empty rows (snd out) Hdel Hout).
Defined.

(** X7.  When the Qdrant client was never initialised, deleting a live
    record is answered with 500, but the row is still in the table, has been
    tombstoned all the same (every live row under the identifier is there
    as its forgotten version) and stays so; trying again is answered
    with 404. *)
Theorem delete_memory_without_client (memory_id : UUID) (w : World) :
  db_ready w ->
  _client w = false ->
  (exists r, In r (memories (postgres w))
             /\ Memories.memory_id r = memory_id
             /\ Memories.should_forget r = false) ->
  exists w',
    server.delete_memory memory_id w =
    (Raise (HTTPException
              HTTP_500_INTERNAL_SERVER_ERROR
              "Failed to delete memory: Qdrant client not initialized"), w')
    /\ (exists r, In r (memories (postgres w'))
                  /\ Memories.memory_id r = memory_id)
    /\ (forall r, In r (memories (postgres w)) ->
                  Memories.memory_id r = memory_id ->
                  Memories.should_forget r = false ->
                  In (Memories.forget (clock w) r) (memories (postgres w')))
    /\ (forall r, In r (memories (postgres w')) ->
                  Memories.memory_id r = memory_id ->
                  Memories.should_forget r = true)
    /\ qdrant w' = qdrant w
    /\ server.delete_memory memory_id w' =
       (Raise (HTTPException HTTP_404_NOT_FOUND
                 ("Memory " ++ uuid_str memory_id
                    ++ " not found or already deleted")), w').
Proof.
  intros Hr Hc [r0 [Hin0 Hlive0]].
  pose proof (delete_memory_run memory_id w Hr) as Hrun. simpl in Hrun.
  assert (Hex : existsb (database_service.forgettable memory_id)
                        (memories (postgres w)) = true).
  { apply existsb_exists. exists r0. split; [exact Hin0|].
    now apply forgettable_iff. }
  rewrite Hex, Hc in Hrun.
  match type of Hrun with _ = (_, ?x) => set (w' := x) in * end.
  assert (Hr' : db_ready w') by (destruct Hr; split; assumption).
  assert (Hall : forall r, In r (memories (postgres w')) ->
                           Memories.memory_id r = memory_id ->
                           Memories.should_forget r = true).
  { intros r Hin Hid. simpl in Hin.
    now apply (tombstoned_after_forget memory_id (clock w)
                 (memories (postgres w)) r). }
  assert (Hkept : forall r, In r (memories (postgres w)) ->
                            Memories.memory_id r = memory_id ->
                            Memories.should_forget r = false ->
                            In (Memories.forget (clock w) r)
                               (memories (postgres w'))).
  { intros r Hin Hid Hf. simpl. unfold update_where. apply in_map_iff.
    exists r. split; [|exact Hin].
    assert (E : database_service.forgettable memory_id r = true)
      by (apply forgettable_iff; tauto).
    now rewrite E. }
  exists w'. split; [exact Hrun|].
  split.
  { exists (Memories.forget (clock w) r0). destruct Hlive0 as [Hid0 Hf0].
    split; [now apply Hkept | exact Hid0]. }
  split; [exact Hkept|]. split; [exact Hall|].
  split; [reflexivity|].
  pose proof (delete_memory_run memory_id w' Hr') as Hrun'.
  cbv zeta in Hrun'.
  destruct (existsb_forgettable_false memory_id _ Hall) as [Hex' _].
  assert (Hp : forall r, In r (memories (postgres w')) ->
                         database_service.forgettable memory_id r = false).
  { intros r Hin.
    destruct (database_service.forgettable memory_id r) eqn:E; [|reflexivity].
    apply forgettable_iff in E. destruct E as [Hid Hf].
    rewrite (Hall r Hin Hid) in Hf. discriminate. }
  rewrite Hex' in Hrun'. rewrite Hrun'. f_equal.
  rewrite (update_where_none _ _ _ Hp), postgres_eta.
  apply with_postgres_same.
Qed.

Lemma delete_memory_without_client_witness :
  let w := with_client false Scenario.w1 in
  exists w',
    server.delete_memory 1%N w =
    (Raise (HTTPException
              500 "Failed to delete memory: Qdrant client not initialized"), w')
    /\ (exists r, In r (memories (postgres w'))
                  /\ Memories.memory_id r = 1%N)
    /\ server.delete_memory 1%N w' =
       (Raise (HTTPException 404 "Memory 1 not found or already deleted"), w').
Proof.
  intros w.
  destruct (delete_memory_without_client 1%N w)
    as (w' & H1 & Hex & _ & _ & _ & H2).
  - split; reflexivity.
  - reflexivity.
  - eexists. split; [left; reflexivity|]. split; reflexivity.
  - exists w'. split; [exact H1 |]. split; [exact Hex | exact H2].
Defined.

(** ** Listing *)








(** X10.  What the endpoint [get_recent_memories] answers with: at most
    [limit] records (their number is the ["total"]), each with the score
    1.0, newest first, each a row of the table whose importance is at least
    [min_importance] and whose interface and privacy realm are the ones
    asked for when these are given and not empty.  Nothing is changed. *)
Theorem get_recent_memories_sound (limit : Z) (min_importance : float)
    (interface privacy_realm : option string) (w : World)
    (results : list (Memories.row * float)) (total : Z) (w' : World) :
  server.get_recent_memories limit min_importance interface privacy_realm w
  = (Return (results, total), w') ->
  w' = w
  /\ total = Z.of_nat (List.length results)
  /\ total <= limit
  /\ descending database_service.newer_first (map fst results)
  /\ forall r score, In (r, score) results ->
       score = 1%Q
       /\ In r (memories (postgres w))
       /\ (min_importance <= Memories.importance_to_me r)%Q
       /\ (forall v, interface = Some v -> v <> "" ->
                     Memories.interface r = v)
       /\ (forall v, privacy_realm = Some v -> v <> "" ->
                     Memories.privacy_realm r = v).
Proof.
  unfold server.get_recent_memories, try_except,
    database_service.get_recent_memories, database_service.get_connection,
    database_service.limit_offset.
  run.
  destruct (_pool w); [|discriminate].
  destruct (accepting (postgres w)); [|discriminate].
  destruct (negb (database_service.int64 limit && database_service.int64 0));
    [discriminate|].
  simpl orb. rewrite orb_false_r.
  destruct (limit <? 0) eqn:Hl; [discriminate|].
  intros E. injection E as <- <- <-.
  set (rows := order_by_desc database_service.newer_first
                 (filter (database_service.recent_where
                            min_importance interface privacy_realm)
                         (memories (postgres w)))).
  split; [reflexivity|]. split; [reflexivity|]. split.
  { rewrite length_map. simpl skipn.
    pose proof (firstn_le_length (Z.to_nat limit) rows). lia. }
  split.
  { rewrite map_map. simpl. rewrite map_id. simpl skipn.
    apply descending_firstn. apply order_by_desc_descending.
    - exact newer_first_total.
    - exact newer_first_trans. }
  intros r score Hin. apply in_map_iff in Hin.
  destruct Hin as [r0 [E Hin]]. injection E as -> <-.
  split; [reflexivity|].
  simpl skipn in Hin. apply in_firstn in Hin.
  apply in_order_by_desc in Hin. apply filter_In in Hin.
  destruct Hin as [Hrow Hwhere]. split; [exact Hrow|].
  unfold database_service.recent_where in Hwhere.
  rewrite !andb_true_iff in Hwhere. destruct Hwhere as [[Hm Hi] Hp].
  split; [now apply Qle_bool_iff|].
  assert (Hne : forall v, v <> "" -> truthy (Some v) = true).
  { intros v Hv. simpl. apply negb_true_iff. now apply String.eqb_neq. }
  split.
  - intros v -> Hv. rewrite (Hne v Hv) in Hi. simpl in Hi.
    now apply String.eqb_eq.
  - intros v -> Hv. rewrite (Hne v Hv) in Hp. simpl in Hp.
    now apply String.eqb_eq.
Qed.

Lemma get_recent_memories_sound_witness :
  exists results total,
    server.get_recent_memories 1 (1 # 4) (Some "vscode") None Scenario.w_twice
    = (Return (results, total), Scenario.w_twice)
    /\ total = 1
    /\ forall r score, In (r, score) results ->
         Memories.interface r = "vscode".
Proof.
  eexists. eexists. split; [vm_compute; reflexivity|].
  split; [reflexivity|].
  intros r score Hin.
  edestruct (get_recent_memories_sound 1 (1 # 4) (Some "vscode") None
               Scenario.w_twice) as (_ & _ & _ & _ & Hall).
  - vm_compute. reflexivity.
  - destruct (Hall r score Hin) as (_ & _ & _ & Hi & _).
    apply (Hi "vscode"); [reflexivity | discriminate].
Defined.

(** ** What the endpoints raise *)

Lemma internal_error_only {A} (m : M A) (what : string) (w : World)
    (e : Exception) (w' : World) :
  try_except m (server.internal_error what) w = (Raise e, w') ->
  exists detail, e = HTTPException HTTP_500_INTERNAL_SERVER_ERROR detail.
Proof.
  unfold try_except, server.internal_error, raise.
  destruct (m w) as [[a|e0] w0]; [discriminate|].
  intros E. injection E as <- _. eauto.
Qed.

(** X11.  Whatever goes wrong inside, the memory endpoints raise nothing
    but [HTTPException]: creating, searching and the two listings only
    with status 500, reading and deleting only with 404 or 500. *)
Theorem endpoints_raise_http_errors_only :
  (forall memory w e w',
      server.create_memory memory w = (Raise e, w') ->
      exists detail, e = HTTPException 500 detail)
  /\ (forall search w e w',
        server.search_memories search w = (Raise e, w') ->
        exists detail, e = HTTPException 500 detail)
  /\ (forall limit min_importance interface privacy_realm w e w',
        server.get_recent_memories limit min_importance interface
                                   privacy_realm w = (Raise e, w') ->
        exists detail, e = HTTPException 500 detail)
  /\ (forall limit offset interface context_filter emotion experience_type
             min_importance with_whom w e w',
        server.list_memories limit offset interface context_filter emotion
                             experience_type min_importance with_whom w
        = (Raise e, w') ->
        exists detail, e = HTTPException 500 detail)
  /\ (forall memory_id w e w',
        server.get_memory memory_id w = (Raise e, w') ->
        exists detail,
          e = HTTPException 404 detail \/ e = HTTPException 500 detail)
  /\ (forall memory_id w e w',
        server.delete_memory memory_id w = (Raise e, w') ->
        exists detail,
          e = HTTPException 404 detail \/ e = HTTPException 500 detail).
Proof.
  repeat split.
  - intros memory w e w'. apply internal_error_only.
  - intros search w e w'. apply internal_error_only.
  - intros limit min_importance interface privacy_realm w e w'.
    apply internal_error_only.
  - intros limit offset interface context_filter emotion experience_type
           min_importance with_whom w e w'.
    apply internal_error_only.
  - intros memory_id w e w'.
    unfold server.get_memory, try_except, database_service.get_memory,
      database_service.get_connection, server.reraise_http,
      server.internal_error.
    run.
    destruct (_pool w); [destruct (accepting (postgres w))|]; simpl.
    + destruct (find _ _); simpl; [discriminate|].
      intros E. injection E as <- _. eauto.
    + intros E. injection E as <- _. eauto.
    + intros E. injection E as <- _. eauto.
  - intros memory_id w e w'.
    unfold server.delete_memory, try_except,
      database_service.soft_delete_memory, database_service.get_connection,
      vector_service.delete_memory_vectors, vector_service.client_delete,
      vector_service.connected, server.reraise_http, server.internal_error.
    run.
    destruct (_pool w); [destruct (accepting (postgres w))|]; simpl.
    + destruct (find _ _); simpl.
      * destruct (_client w); simpl.
        -- destruct (reachable (qdrant w)); discriminate.
        -- intros E. injection E as <- _. eauto.
      * intros E. injection E as <- _. eauto.
    + intros E. injection E as <- _. eauto.
    + intros E. injection E as <- _. eauto.
Qed.

(** ** Sessions and modalities of a new record *)

Lemma create_session_returns (interface : string) (w : World)
    (session_id : UUID) (w' : World) :
  database_service.create_session interface w = (Return session_id, w') ->
  session_id = next_uuid w
  /\ existsb (fun s => N.eqb (Sessions.session_id s) session_id)
             (sessions (postgres w)) = false
  /\ sessions (postgres w')
     = (sessions (postgres w)
          ++ [ {| Sessions.session_id := session_id;
                  Sessions.interface := interface;
                  Sessions.started_at := clock w |} ])%list.
Proof.
  unfold database_service.create_session, database_service.get_connection.
  run. simpl.
  destruct (_pool w); [|discriminate].
  destruct (accepting (postgres w)); [|discriminate].
  simpl.
  destruct (existsb _ (sessions (postgres w))) eqn:Hex; [discriminate|].
  intros E. injection E as <- <-. simpl. repeat split. exact Hex.
Qed.

Lemma save_to_postgres_steps (memory : MemoryCreate.t) (w : World)
    (db_memory : Created.t) (w2 : World) :
  server.save_to_postgres memory w = (Return db_memory, w2) ->
  exists ws,
    match MemoryCreate.session_id memory with
    | Some s => ret s
    | None => database_service.create_session (MemoryCreate.interface memory)
    end (with_next_uuid (N.succ (next_uuid w)) w)
    = (Return (Created.session_id db_memory), ws)
    /\ sessions (postgres w2) = sessions (postgres ws)
    /\ Created.memory_id db_memory = next_uuid w
    /\ Created.modalities db_memory
       = (["text"]
            ++ (if truthy (MemoryCreate.visual_path memory)
                then ["visual"] else [])
            ++ (if truthy (MemoryCreate.audio_path memory)
                then ["audio"] else [])
            ++ (if truthy (MemoryCreate.video_path memory)
                then ["video"] else []))%list.
Proof.
  unfold server.save_to_postgres, database_service.create_memory.
  unfold bind at 1. unfold uuid4 at 1.
  unfold bind at 1. unfold utcnow at 1.
  unfold bind at 1.
  set (w1 := with_next_uuid _ w).
  destruct (match MemoryCreate.session_id memory with
            | Some s => ret s
            | None => database_service.create_session
                        (MemoryCreate.interface memory)
            end w1) as [[session_id|e] ws] eqn:Es; [|discriminate].
  unfold bind at 1. unfold database_service.get_connection.
  run. simpl.
  destruct (_pool ws); [|discriminate].
  destruct (accepting (postgres ws)); [|discriminate].
  simpl.
  destruct (existsb _ (memories (postgres ws))); [discriminate|].
  intros E. injection E as <- <-. simpl.
  exists ws. repeat split.
Qed.

(** X12.  A record created with a session identifier is filed under it
    and the [sessions] table is not touched; a record created without one
    gets a session of its own: exactly one row is added to [sessions],
    with a new identifier, the interface of the record and the time of the
    call, and the record is filed under it. *)
Theorem create_memory_resolves_the_session (memory : MemoryCreate.t)
    (w : World) (db_memory : Created.t) (w2 : World) :
  server.save_to_postgres memory w = (Return db_memory, w2) ->
  (exists row,
      memories (postgres w2) = (memories (postgres w) ++ [row])%list
      /\ Memories.session_id row = Created.session_id db_memory)
  /\ match MemoryCreate.session_id memory with
     | Some s =>
         Created.session_id db_memory = s
         /\ sessions (postgres w2) = sessions (postgres w)
     | None =>
         Created.session_id db_memory <> Created.memory_id db_memory
         /\ (forall s, In s (sessions (postgres w)) ->
                       Sessions.session_id s <> Created.session_id db_memory)
         /\ sessions (postgres w2)
            = (sessions (postgres w)
                 ++ [ {| Sessions.session_id := Created.session_id db_memory;
                         Sessions.interface := MemoryCreate.interface memory;
                         Sessions.started_at := clock w |} ])%list
     end.
Proof.
  intros Hsave.
  destruct (save_to_postgres_row memory w db_memory w2 Hsave)
    as (row & Hrows & _ & Hsession & _).
  split; [exists row; split; assumption|].
  destruct (save_to_postgres_steps memory w db_memory w2 Hsave)
    as (ws & Hstep & Hsessions & Hid & _).
  destruct (MemoryCreate.session_id memory) as [s|].
  - unfold ret in Hstep. injection Hstep as <- <-.
    split; [reflexivity | exact Hsessions].
  - apply create_session_returns in Hstep.
    destruct Hstep as (Hnew & Hfresh & Hadded). simpl in Hnew, Hfresh, Hadded.
    split; [rewrite Hnew, Hid; lia|]. split.
    + intros s Hin Heq.
      assert (existsb (fun s0 => N.eqb (Sessions.session_id s0)
                                       (Created.session_id db_memory))
                      (sessions (postgres w)) = true).
      { apply existsb_exists. exists s. split; [exact Hin|].
        now apply N.eqb_eq. }
      congruence.
    + now rewrite Hsessions.
Qed.

Lemma create_memory_resolves_the_session_witness :
  let memory :=
    Scenario.memory "we wrote the search" "hello" (1 # 2) "public" in
  let out := server.save_to_postgres memory Scenario.w0 in
  exists db_memory,
    out = (Return db_memory, snd out)
    /\ sessions (postgres (snd out))
       = [ {| Sessions.session_id := Created.session_id db_memory;
              Sessions.interface := "vscode";
              Sessions.started_at := 1000 |} ].
Proof.
  intros memory out.
  assert (Hout : exists db_memory, out = (Return db_memory, snd out))
    by (eexists; vm_compute; reflexivity).
  destruct Hout as [db_memory Hout].
  exists db_memory. split; [exact Hout|].
  destruct (create_memory_resolves_the_session
              memory Scenario.w0 db_memory (snd out) Hout) as [_ Hs].
  change (MemoryCreate.session_id memory) with (@None UUID) in Hs.
  cbv iota in Hs. destruct Hs as (_ & _ & Hs). exact Hs.
Defined.

(** X13.  The modalities of a created record, as [create_memory] answers
    them: ["text"] always comes first, and ["visual"], ["audio"] and
    ["video"] are listed exactly when the matching path is given and is
    not the empty string. *)
Theorem create_memory_modalities (memory : MemoryCreate.t) (w : World)
    (response : MemoryResponse.t) (w' : World) :
  server.create_memory memory w = (Return response, w') ->
  hd_error (MemoryResponse.modalities response) = Some "text"
  /\ (In "visual" (MemoryResponse.modalities response)
      <-> truthy (MemoryCreate.visual_path memory) = true)
  /\ (In "audio" (MemoryResponse.modalities response)
      <-> truthy (MemoryCreate.audio_path memory) = true)
  /\ (In "video" (MemoryResponse.modalities response)
      <-> truthy (MemoryCreate.video_path memory) = true).
Proof.
  intros Hcreate.
  destruct (create_memory_returns memory w response w' Hcreate)
    as (embedding & db_memory & w2 & _ & Hsave & _ & ->).
  destruct (save_to_postgres_steps memory w db_memory w2 Hsave)
    as (ws & _ & _ & _ & Hmod).
  unfold server.MemoryResponse_of_created. simpl MemoryResponse.modalities.
  rewrite Hmod.
  destruct (truthy (MemoryCreate.visual_path memory)),
           (truthy (MemoryCreate.audio_path memory)),
           (truthy (MemoryCreate.video_path memory));
    simpl; repeat split; intros H; try reflexivity; try discriminate;
    try (repeat destruct H as [H|H]; try discriminate; contradiction);
    tauto.
Qed.

Lemma create_memory_modalities_witness :
  exists response w',
    server.create_memory
      (Scenario.memory "we wrote the search" "hello" (1 # 2) "public")
      Scenario.w0 = (Return response, w')
    /\ hd_error (MemoryResponse.modalities response) = Some "text".
Proof.
  eexists. eexists. split; [vm_compute; reflexivity|].
  edestruct (create_memory_modalities
               (Scenario.memory "we wrote the search" "hello" (1 # 2) "public")
               Scenario.w0) as [Hhd _].
  - vm_compute. reflexivity.
  - exact Hhd.
Defined.

(** ** What the endpoints leave alone *)

Lemma get_text_embedding_sbert_frame (text : string) (w : World)
    (o : Outcome ndarray) (w' : World) :
  embedding_service.get_text_embedding_sbert text w = (o, w') -> w' = w.
Proof.
  unfold embedding_service.get_text_embedding_sbert. run.
  destruct (_sbert_model w) as [model|]; [destruct (model text)|];
    intros E; now injection E.
Qed.

Lemma search_text_embeddings_frame (query_embedding : ndarray) (limit : Z)
    (interface privacy_realm : option string) (min_importance : option float)
    (w : World) (o : Outcome (list VectorResult.t)) (w' : World) :
  vector_service.search_text_embeddings
    query_embedding limit interface privacy_realm min_importance w = (o, w') ->
  w' = w.
Proof.
  unfold vector_service.search_text_embeddings, vector_service.client_search,
    vector_service.connected.
  run.
  destruct (_client w); [destruct (reachable (qdrant w))|];
    intros E; now injection E.
Qed.

Lemma only_accessed_refl (w : World) : only_accessed w w.
Proof. repeat split. Qed.

Lemma only_accessed_trans (w1 w2 w3 : World) :
  only_accessed w1 w2 -> only_accessed w2 w3 -> only_accessed w1 w3.
Proof.
  unfold only_accessed. intros H1 H2.
  destruct H1 as (A1 & B1 & C1 & D1 & E1 & F1 & G1 & I1 & J1).
  destruct H2 as (A2 & B2 & C2 & D2 & E2 & F2 & G2 & I2 & J2).
  repeat split; congruence.
Qed.

Lemma get_memory_frame (memory_id : UUID) (w : World)
    (o : Outcome (option Memories.row)) (w' : World) :
  database_service.get_memory memory_id w = (o, w') -> only_accessed w w'.
Proof.
  unfold database_service.get_memory, database_service.get_connection.
  run.
  destruct (_pool w) eqn:Hp; [destruct (accepting (postgres w)) eqn:Ha|];
    simpl; intros E; injection E as _ <-;
    try apply only_accessed_refl.
  unfold only_accessed. simpl. rewrite without_access_touched.
  repeat split; congruence.
Qed.

Lemma hydrate_frame (h : VectorResult.t) (w : World)
    (o : Outcome (option SearchResult.t)) (w' : World) :
  server.hydrate h w = (o, w') -> only_accessed w w'.
Proof.
  unfold server.hydrate, bind.
  destruct (database_service.get_memory (VectorResult.memory_id h) w)
    as [[memory|e] w1] eqn:Eg; unfold ret; intros E; injection E as _ <-;
    now apply get_memory_frame in Eg.
Qed.

Lemma for_each_hydrate_frame (hits : list VectorResult.t) (w : World)
    (o : Outcome (list SearchResult.t)) (w' : World) :
  for_each server.hydrate hits w = (o, w') -> only_accessed w w'.
Proof.
  revert w o w'. induction hits as [|h hits IH]; intros w o w'.
  - simpl. unfold ret. intros E. injection E as _ <-.
    apply only_accessed_refl.
  - rewrite for_each_cons.
    destruct (server.hydrate h w) as [[r|e] w1] eqn:Eh.
    + apply hydrate_frame in Eh.
      destruct (for_each server.hydrate hits w1) as [[rest|e] w2] eqn:Er;
        intros E; injection E as _ <-;
        apply IH in Er; now apply only_accessed_trans with w1.
    + intros E. injection E as _ <-. now apply hydrate_frame in Eh.
Qed.

Lemma search_memories_frame (search : MemorySearch.t) (w : World)
    (o : Outcome (list SearchResult.t)) (w' : World) :
  server.search_memories search w = (o, w') -> only_accessed w w'.
Proof.
  unfold server.search_memories, try_except, server.internal_error.
  unfold bind at 1.
  destruct (embedding_service.get_text_embedding_sbert
              (MemorySearch.query search) w) as [[qe|e] w1] eqn:Ee;
    apply get_text_embedding_sbert_frame in Ee; subst w1.
  2:{ unfold raise. intros E. injection E as _ <-.
      apply only_accessed_refl. }
  unfold bind at 1.
  destruct (vector_service.search_text_embeddings _ _ _ _ _ w)
    as [[hits|e] w2] eqn:Ev;
    apply search_text_embeddings_frame in Ev; subst w2.
  2:{ unfold raise. intros E. injection E as _ <-.
      apply only_accessed_refl. }
  destruct (for_each server.hydrate hits w) as [[rs|e] w3] eqn:Ef;
    apply for_each_hydrate_frame in Ef;
    unfold raise; intros E; injection E as _ <-; exact Ef.
Qed.

(** X14.  A search, whether it succeeds or fails, changes nothing but
    access bookkeeping: the index, the sessions and every column of every
    row other than [accessed_count] and [last_accessed] are as before.  (The
    rows it returns do get their access counted.) *)
Theorem search_memories_only_counts_accesses (search : MemorySearch.t)
    (w : World) (o : Outcome (list SearchResult.t)) (w' : World) :
  server.search_memories search w = (o, w') ->
  map Memories.without_access (memories (postgres w'))
  = map Memories.without_access (memories (postgres w))
  /\ sessions (postgres w') = sessions (postgres w)
  /\ qdrant w' = qdrant w.
Proof.
  intros Hrun.
  destruct (search_memories_frame search w o w' Hrun)
    as (A & B & _ & _ & _ & F & _).
  repeat split; assumption.
Qed.

Lemma search_memories_only_counts_accesses_witness :
  let out := server.search_memories (Scenario.search "hello" 5)
                                    Scenario.w_twice in
  map Memories.without_access (memories (postgres (snd out)))
  = map Memories.without_access (memories (postgres Scenario.w_twice))
  /\ sessions (postgres (snd out)) = sessions (postgres Scenario.w_twice)
  /\ qdrant (snd out) = qdrant Scenario.w_twice.
Proof.
  intros out.
  apply (search_memories_only_counts_accesses
           (Scenario.search "hello" 5) Scenario.w_twice (fst out) (snd out)).
  apply surjective_pairing.
Defined.

(** ** The index never runs ahead of the relational store *)

Lemma known_without_access (rows : list Memories.row) (i : UUID) :
  known (map Memories.without_access rows) i = known rows i.
Proof.
  unfold known. induction rows as [|r rows IH]; simpl; [reflexivity|].
  now rewrite IH.
Qed.

Lemma only_accessed_known (w w' : World) (i : UUID) :
  only_accessed w w' ->
  known (memories (postgres w')) i = known (memories (postgres w)) i.
Proof.
  intros [H _].
  rewrite <- (known_without_access (memories (postgres w'))).
  rewrite <- (known_without_access (memories (postgres w))).
  now rewrite H.
Qed.

Lemma known_forgotten (p : Memories.row -> bool) (now : datetime)
    (rows : list Memories.row) (i : UUID) :
  known (update_where p (Memories.forget now) rows) i = known rows i.
Proof.
  unfold known. induction rows as [|r rows IH]; simpl; [reflexivity|].
  rewrite IH. f_equal. destruct (p r); reflexivity.
Qed.

Lemma known_app (rows rows' : list Memories.row) (i : UUID) :
  known (rows ++ rows') i = (known rows i || known rows' i)%bool.
Proof. unfold known. apply existsb_app. Qed.

Lemma save_to_postgres_frame (memory : MemoryCreate.t) (w : World)
    (o : Outcome Created.t) (w2 : World) :
  server.save_to_postgres memory w = (o, w2) ->
  qdrant w2 = qdrant w
  /\ (forall i, known (memories (postgres w)) i = true ->
                known (memories (postgres w2)) i = true)
  /\ (forall db_memory, o = Return db_memory ->
        known (memories (postgres w2)) (Created.memory_id db_memory) = true).
Proof.
  unfold server.save_to_postgres, database_service.create_memory.
  unfold bind at 1. unfold uuid4 at 1.
  unfold bind at 1. unfold utcnow at 1.
  unfold bind at 1.
  set (w1 := with_next_uuid _ w).
  destruct (match MemoryCreate.session_id memory with
            | Some s => ret s
            | None => database_service.create_session
                        (MemoryCreate.interface memory)
            end w1) as [os ws] eqn:Es.
  assert (Hs : qdrant ws = qdrant w
               /\ memories (postgres ws) = memories (postgres w)).
  { destruct (MemoryCreate.session_id memory) as [s|].
    - unfold ret in Es. injection Es as <- <-. split; reflexivity.
    - apply create_session_frame in Es.
      destruct Es as [(_ & _ & _ & Hq & _) [Hm _]]. split; assumption. }
  destruct Hs as [Hq Hm].
  destruct os as [session_id|e].
  2:{ intros E. injection E as <- <-. rewrite Hm.
      split; [exact Hq|]. split; [auto | discriminate]. }
  unfold bind at 1. unfold database_service.get_connection.
  run. simpl.
  destruct (_pool ws); [destruct (accepting (postgres ws))|]; simpl.
  - destruct (existsb _ (memories (postgres ws))) eqn:Hex;
      intros E; injection E as <- <-; simpl; rewrite ?Hm.
    + split; [exact Hq|]. split; [auto | discriminate].
    + split; [exact Hq|]. split.
      * intros i Hi. rewrite known_app, Hi. reflexivity.
      * intros db_memory E. injection E as <-. simpl.
        rewrite known_app. apply orb_true_iff. right.
        unfold known, database_service.has_id. simpl.
        now rewrite N.eqb_refl.
  - intros E. injection E as <- <-. rewrite Hm.
    split; [exact Hq|]. split; [auto | discriminate].
  - intros E. injection E as <- <-. rewrite Hm.
    split; [exact Hq|]. split; [auto | discriminate].
Qed.

Lemma store_text_embedding_frame (memory_id : UUID) (embedding : ndarray)
    (metadata : option Payload) (w : World) (o : Outcome unit) (w' : World) :
  vector_service.store_text_embedding memory_id embedding metadata w = (o, w') ->
  postgres w' = postgres w
  /\ forall p, In p (text_points (qdrant w')) ->
               In p (text_points (qdrant w)) \/ id p = memory_id.
Proof.
  unfold vector_service.store_text_embedding, vector_service.client_upsert,
    vector_service.connected.
  run.
  destruct (_client w); [destruct (reachable (qdrant w))|];
    intros E; injection E as _ <-; simpl;
    (split; [reflexivity|]); try (intros p Hp; now left).
  intros p Hp.
  destruct (existsb _ (text_points (qdrant w))).
  - apply in_map_iff in Hp. destruct Hp as [q [Hq Hin]].
    simpl in Hq. destruct (N.eqb (id q) memory_id); subst p.
    + right. reflexivity.
    + left. exact Hin.
  - apply in_app_or in Hp. destruct Hp as [Hp | [<- | Hp]].
    + left. eapply in_firstn. exact Hp.
    + right. reflexivity.
    + left.
      match type of Hp with
      | In _ (skipn ?k ?l) => rewrite <- (firstn_skipn k l)
      end.
      apply in_or_app. now right.
Qed.

Lemma create_memory_keeps_index_backed (memory : MemoryCreate.t) (w : World)
    (o : Outcome MemoryResponse.t) (w' : World) :
  index_backed w ->
  server.create_memory memory w = (o, w') -> index_backed w'.
Proof.
  intros Hinv.
  unfold server.create_memory, try_except, server.internal_error,
    embedding_service.generate_memory_embeddings.
  unfold bind at 1. unfold bind at 1.
  destruct (embedding_service.get_text_embedding_sbert
              (MemoryCreate.text_content memory) w) as [[embedding|e] w1] eqn:Ee;
    apply get_text_embedding_sbert_frame in Ee; subst w1.
  2:{ unfold raise. intros E. injection E as _ <-. exact Hinv. }
  unfold ret at 1. unfold bind at 1.
  destruct (server.save_to_postgres memory w) as [[db_memory|e] w2] eqn:Es;
    apply save_to_postgres_frame in Es; destruct Es as (Hq & Hmono & Hnew).
  2:{ unfold raise. intros E. injection E as _ <-.
      intros p Hp. rewrite Hq in Hp. apply Hmono. now apply Hinv. }
  change (server.dict_get "text_sbert" [("text_sbert", embedding)])
    with (Some embedding).
  unfold bind at 1.
  destruct (vector_service.store_text_embedding _ _ _ w2) as [[u|e] w3] eqn:Ev;
    apply store_text_embedding_frame in Ev; destruct Ev as [Hpg Hpoints];
    unfold ret, raise; intros E; injection E as _ <-;
    intros p Hp; rewrite Hpg;
    (destruct (Hpoints p Hp) as [Hold | Hid];
     [rewrite Hq in Hold; apply Hmono; now apply Hinv
     | rewrite Hid; now apply Hnew]).
Qed.

Lemma delete_memory_frame (memory_id : UUID) (w : World) (o : Outcome unit)
    (w' : World) :
  server.delete_memory memory_id w = (o, w') ->
  (forall i, known (memories (postgres w')) i = known (memories (postgres w)) i)
  /\ forall p, In p (text_points (qdrant w')) -> In p (text_points (qdrant w)).
Proof.
  unfold server.delete_memory, try_except,
    database_service.soft_delete_memory, database_service.get_connection,
    vector_service.delete_memory_vectors, vector_service.client_delete,
    vector_service.connected, server.reraise_http, server.internal_error.
  run.
  destruct (_pool w); [destruct (accepting (postgres w))|]; simpl.
  - destruct (find _ _); simpl.
    + destruct (_client w); simpl.
      * destruct (reachable (qdrant w)); simpl;
          intros E; injection E as _ <-; simpl;
          (split; [intros i; apply known_forgotten|]);
          intros p Hp; [apply filter_In in Hp; tauto | exact Hp].
      * intros E. injection E as _ <-. simpl.
        split; [intros i; apply known_forgotten | auto].
    + intros E. injection E as _ <-. simpl.
      split; [intros i; apply known_forgotten | auto].
  - intros E. injection E as _ <-. split; auto.
  - intros E. injection E as _ <-. split; auto.
Qed.

Lemma server_get_memory_frame (memory_id : UUID) (w : World)
    (o : Outcome MemoryResponse.t) (w' : World) :
  server.get_memory memory_id w = (o, w') -> only_accessed w w'.
Proof.
  unfold server.get_memory, try_except, server.reraise_http,
    server.internal_error. unfold bind at 1.
  destruct (database_service.get_memory memory_id w) as [[found|e] w1] eqn:Eg;
    apply get_memory_frame in Eg.
  - destruct found; unfold ret, raise; intros E; injection E as _ <-; exact Eg.
  - destruct e; unfold raise; intros E; injection E as _ <-; exact Eg.
Qed.

(** X15.  If every point of the index has a row in the relational store
    under its identifier, this is still so after any of the four memory
    endpoints has run, whether it succeeded or failed: a point is only
    written after its row, and rows are never removed. *)
Theorem index_backed_is_kept (w : World) :
  index_backed w ->
  (forall memory o w',
      server.create_memory memory w = (o, w') -> index_backed w')
  /\ (forall memory_id o w',
        server.delete_memory memory_id w = (o, w') -> index_backed w')
  /\ (forall memory_id o w',
        server.get_memory memory_id w = (o, w') -> index_backed w')
  /\ (forall search o w',
        server.search_memories search w = (o, w') -> index_backed w').
Proof.
  intros Hinv. repeat split.
  - intros memory o w'. now apply create_memory_keeps_index_backed.
  - intros memory_id o w' Hrun.
    destruct (delete_memory_frame memory_id w o w' Hrun) as [Hk Hp].
    intros p Hin. rewrite Hk. apply Hinv. now apply Hp.
  - intros memory_id o w' Hrun.
    pose proof (server_get_memory_frame memory_id w o w' Hrun) as Hf.
    intros p Hin. rewrite (only_accessed_known w w' _ Hf).
    apply Hinv. destruct Hf as (_ & _ & _ & _ & _ & Hq & _).
    now rewrite <- Hq.
  - intros search o w' Hrun.
    pose proof (search_memories_frame search w o w' Hrun) as Hf.
    intros p Hin. rewrite (only_accessed_known w w' _ Hf).
    apply Hinv. destruct Hf as (_ & _ & _ & _ & _ & Hq & _).
    now rewrite <- Hq.
Qed.

Lemma index_backed_is_kept_witness :
  index_backed Scenario.w1
  /\ index_backed
       (snd (server.create_memory
               (Scenario.memory "we wrote it again" "hello" (1 # 2) "public")
               Scenario.w1)).
Proof.
  assert (H : index_backed Scenario.w1)
    by (intros p [<- | []]; reflexivity).
  split; [exact H|].
  destruct (index_backed_is_kept Scenario.w1 H) as [Hcreate _].
  eapply Hcreate. apply surjective_pairing.
Defined.

Lemma filter_all {A} (f : A -> bool) (l : list A) :
  (forall x, In x l -> f x = true) -> filter f l = l.
Proof.
  induction l as [|x l IH]; intros H; simpl; [reflexivity|].
  rewrite (H x (or_introl eq_refl)). f_equal. apply IH.
  intros y Hy. apply H. now right.
Qed.

(** X16.  In a store where every point of the index has a row, a search
    discards nothing: its results are the hits of the index query, one for
    one, in the same order and with the same scores. *)
Theorem search_memories_keeps_every_hit (search : MemorySearch.t) (w : World)
    (results : list SearchResult.t) (w' : World) :
  index_backed w ->
  server.search_memories search w = (Return results, w') ->
  exists query_embedding hits,
    vector_service.search_text_embeddings
      query_embedding (MemorySearch.limit search)
      (MemorySearch.interface search) (MemorySearch.privacy_realm search)
      (MemorySearch.min_importance search) w = (Return hits, w)
    /\ map ranked results = map ranked_hit hits.
Proof.
  intros Hinv Hrun.
  destruct (search_memories_returns search w results w' Hrun)
    as (qe & hits & _ & Hsearch & Hloop).
  exists qe, hits. split; [exact Hsearch|].
  destruct (for_each_hydrate_returns hits w results w' Hloop) as [_ Hranked].
  rewrite Hranked. apply filter_all.
  intros x Hx. apply in_map_iff in Hx. destruct Hx as [h [<- Hh]].
  destruct (search_text_embeddings_returns _ _ _ _ _ _ _ _ Hsearch)
    as (_ & _ & _ & Hhits).
  destruct (Hhits h Hh) as (p & Hp & Hid & _).
  simpl. rewrite Hid. now apply Hinv.
Qed.

Lemma search_memories_keeps_every_hit_witness :
  let out := server.search_memories (Scenario.search "hello" 5)
                                    Scenario.w_twice in
  exists results query_embedding hits,
    out = (Return results, snd out)
    /\ vector_service.search_text_embeddings
         query_embedding 5 None None None Scenario.w_twice
       = (Return hits, Scenario.w_twice)
    /\ map ranked results = map ranked_hit hits.
Proof.
  intros out.
  assert (Hout : exists results, out = (Return results, snd out))
    by (eexists; vm_compute; reflexivity).
  destruct Hout as [results Hout].
  assert (Hinv : index_backed Scenario.w_twice)
    by (intros p [<- | [<- | []]]; reflexivity).
  destruct (search_memories_keeps_every_hit
              (Scenario.search "hello" 5) Scenario.w_twice results (snd out)
              Hinv Hout) as (qe & hits & H1 & H2).
  exists results, qe, hits. repeat split; assumption.
Defined.

(** ** Create, then search *)

Lemma get_text_embedding_sbert_returns (text : string) (w : World)
    (embedding : ndarray) (w' : World) :
  embedding_service.get_text_embedding_sbert text w = (Return embedding, w') ->
  exists model, _sbert_model w = Some model /\ model text = Some embedding.
Proof.
  unfold embedding_service.get_text_embedding_sbert. run.
  destruct (_sbert_model w) as [model|]; [|discriminate].
  destruct (model text) as [e|] eqn:Em; [|discriminate].
  intros E. injection E as <- _. eauto.
Qed.

Lemma search_text_embeddings_unfiltered (query_embedding : ndarray)
    (limit : Z) (w : World) :
  _client w = true -> reachable (qdrant w) = true ->
  vector_service.search_text_embeddings query_embedding limit None None None w
  = (Return
       (map (fun hit =>
               {| VectorResult.memory_id := hit_id hit;
                  VectorResult.score := hit_score hit;
                  VectorResult.metadata := hit_payload hit |})
            (firstn (Z.to_nat limit)
               (order_by_desc vector_service.higher_first
                  (map (vector_service.scored (qdrant w) query_embedding)
                       (text_points (qdrant w)))))), w).
Proof.
  intros Hc Hu.
  unfold vector_service.search_text_embeddings, vector_service.client_search,
    vector_service.connected.
  run. rewrite Hc, Hu. simpl.
  rewrite (filter_all _ (text_points (qdrant w))) by reflexivity.
  reflexivity.
Qed.

(** X17.  A memory that [create_memory] has answered with is found by a
    search for its own text: with no filter and a limit that covers the
    index, the search succeeds and the new identifier is among its
    results. *)
Theorem create_memory_then_search (memory : MemoryCreate.t) (w : World)
    (response : MemoryResponse.t) (w1 : World) (search : MemorySearch.t) :
  server.create_memory memory w = (Return response, w1) ->
  MemorySearch.query search = MemoryCreate.text_content memory ->
  MemorySearch.interface search = None ->
  MemorySearch.privacy_realm search = None ->
  MemorySearch.min_importance search = None ->
  Z.of_nat (List.length (text_points (qdrant w1))) <= MemorySearch.limit search ->
  exists results w2,
    server.search_memories search w1 = (Return results, w2)
    /\ In (MemoryResponse.memory_id response)
          (map SearchResult.memory_id results).
Proof.
  intros Hcreate Hquery Hi Hp Hm Hlimit.
  destruct (create_memory_returns memory w response w1 Hcreate)
    as (embedding & db_memory & wa & Hembed & Hsave & Hstore & ->).
  change (MemoryResponse.memory_id
            (server.MemoryResponse_of_created db_memory))
    with (Created.memory_id db_memory).
  destruct (get_text_embedding_sbert_returns _ _ _ _ Hembed)
    as (model & Hmodel & Hencode).
  destruct (save_to_postgres_returns memory w db_memory wa Hsave)
    as ((_ & _ & _ & _ & Hsbert & _) & [Hpool Hacc] & _ & row & Hrows & Hid & _).
  destruct (store_text_embedding_returns _ _ _ _ _ _ Hstore)
    as (_ & _ & Hpg & Hpool' & Hc & Hu & _ & Hsbert' & (p & Hp_in & Hp_id & _) & _).
  assert (Hr : db_ready w1) by (split; [congruence | now rewrite Hpg]).
  assert (Hknown : known (memories (postgres w1)) (Created.memory_id db_memory)
                   = true).
  { rewrite Hpg, Hrows, known_app. apply orb_true_iff. right.
    unfold known. simpl. apply orb_true_iff. left. now apply has_id_iff. }
  pose proof (search_text_embeddings_unfiltered
                embedding (MemorySearch.limit search) w1 Hc Hu) as Hsearch.
  match type of Hsearch with _ = (Return ?h, _) => set (hits := h) in * end.
  destruct (for_each_hydrate hits w1 Hr)
    as (results & w2 & Hloop & _ & _ & Hranked).
  exists results, w2. split.
  - unfold server.search_memories, try_except,
      embedding_service.get_text_embedding_sbert.
    unfold bind at 1. unfold bind at 1. unfold get_world at 1.
    rewrite Hsbert', Hsbert, Hmodel, Hquery, Hencode. unfold ret at 1.
    unfold bind at 1. rewrite Hi, Hp, Hm, Hsearch, Hloop. reflexivity.
  - assert (Hin : In (Created.memory_id db_memory,
                      similarity (qdrant w1) embedding (vector p))
                     (map ranked results)).
    { rewrite Hranked. apply filter_In. split; [|exact Hknown].
      apply in_map_iff.
      exists {| VectorResult.memory_id := id p;
                VectorResult.score :=
                  similarity (qdrant w1) embedding (vector p);
                VectorResult.metadata := payload p |}.
      split; [unfold ranked_hit; simpl; now rewrite Hp_id|].
      unfold hits. apply in_map_iff.
      exists (vector_service.scored (qdrant w1) embedding p).
      split; [reflexivity|].
      rewrite firstn_all2.
      - apply in_order_by_desc. now apply in_map.
      - rewrite length_order_by_desc, length_map. lia. }
    apply in_map_iff in Hin. destruct Hin as [r [Er Hr_in]].
    apply in_map_iff. exists r. split; [|exact Hr_in].
    unfold ranked in Er. now injection Er.
Qed.

Lemma create_memory_then_search_witness :
  let memory := Scenario.memory "we wrote it again" "hello" (1 # 2) "public" in
  let out := server.create_memory memory Scenario.w1 in
  exists response results w2,
    out = (Return response, snd out)
    /\ server.search_memories (Scenario.search "hello" 5) (snd out)
       = (Return results, w2)
    /\ In (MemoryResponse.memory_id response)
          (map SearchResult.memory_id results).
Proof.
  intros memory out.
  assert (Hout : exists response, out = (Return response, snd out))
    by (eexists; vm_compute; reflexivity).
  destruct Hout as [response Hout].
  destruct (create_memory_then_search
              memory Scenario.w1 response (snd out)
              (Scenario.search "hello" 5) Hout)
    as (results & w2 & H1 & H2); try reflexivity.
  - vm_compute. discriminate.
  - exists response, results, w2. repeat split; assumption.
Defined.

(** ** A failed creation *)

Lemma store_text_embedding_raises (memory_id : UUID) (embedding : ndarray)
    (metadata : option Payload) (w : World) (e : Exception) (w' : World) :
  vector_service.store_text_embedding memory_id embedding metadata w
  = (Raise e, w') -> w' = w.
Proof.
  unfold vector_service.store_text_embedding, vector_service.client_upsert,
    vector_service.connected.
  run.
  destruct (_client w); [destruct (reachable (qdrant w))|];
    intros E; [discriminate| |]; now injection E.
Qed.

(** X18.  A creation that fails, at whatever step, has not written to the
    index: the vector write is the last step, so an error answer means the
    index is exactly as it was (the relational store may have gained the
    row). *)
Theorem create_memory_failure_leaves_the_index (memory : MemoryCreate.t)
    (w : World) (e : Exception) (w' : World) :
  server.create_memory memory w = (Raise e, w') ->
  qdrant w' = qdrant w.
Proof.
  unfold server.create_memory, try_except, server.internal_error,
    embedding_service.generate_memory_embeddings.
  unfold bind at 1. unfold bind at 1.
  destruct (embedding_service.get_text_embedding_sbert
              (MemoryCreate.text_content memory) w) as [[embedding|e0] w1] eqn:Ee;
    apply get_text_embedding_sbert_frame in Ee; subst w1.
  2:{ unfold raise. intros E. now injection E as _ <-. }
  unfold ret at 1. unfold bind at 1.
  destruct (server.save_to_postgres memory w) as [[db_memory|e0] w2] eqn:Es;
    apply save_to_postgres_frame in Es; destruct Es as (Hq & _).
  2:{ unfold raise. intros E. now injection E as _ <-. }
  change (server.dict_get "text_sbert" [("text_sbert", embedding)])
    with (Some embedding).
  unfold bind at 1.
  destruct (vector_service.store_text_embedding _ _ _ w2) as [[u|e0] w3] eqn:Ev.
  - unfold ret. discriminate.
  - apply store_text_embedding_raises in Ev. subst w3.
    unfold raise. intros E. now injection E as _ <-.
Qed.

Lemma create_memory_failure_leaves_the_index_witness :
  let w := with_pool false Scenario.w1 in
  let out := server.create_memory
               (Scenario.memory "we met again" "hello again" (1 # 2) "public")
               w in
  exists e, out = (Raise e, snd out) /\ qdrant (snd out) = qdrant w.
Proof.
  intros w out.
  assert (Hout : exists e, out = (Raise e, snd out))
    by (eexists; vm_compute; reflexivity).
  destruct Hout as [e Hout]. exists e. split; [exact Hout|].
  exact (create_memory_failure_leaves_the_index _ w e (snd out) Hout).
Defined.

(** ** Request validation of a search *)

(** X19.  A search request is run only if its limit is between 1 and 100
    and its minimum importance, when given, lies in [0,1]; any other
    request is answered with a validation error and nothing is touched. *)
Theorem search_request_validation (search : MemorySearch.t) (w : World) :
  (1 <= MemorySearch.limit search <= 100
   /\ (forall m, MemorySearch.min_importance search = Some m ->
                 (0 <= m <= 1)%Q) ->
   server.request MemorySearch.validate server.search_memories search w
   = server.search_memories search w)
  /\ (~ (1 <= MemorySearch.limit search <= 100
         /\ (forall m, MemorySearch.min_importance search = Some m ->
                       (0 <= m <= 1)%Q)) ->
      server.request MemorySearch.validate server.search_memories search w
      = (Raise (RequestValidationError "body"), w)).
Proof.
  assert (Hiff : MemorySearch.validate search = true <->
                 1 <= MemorySearch.limit search <= 100
                 /\ (forall m, MemorySearch.min_importance search = Some m ->
                               (0 <= m <= 1)%Q)).
  { unfold MemorySearch.validate.
    rewrite !andb_true_iff, !Z.leb_le.
    destruct (MemorySearch.min_importance search) as [x|].
    - rewrite in_unit_interval_iff. split.
      + intros [[Hx H1] H2]. split; [lia|]. intros m E. now injection E as <-.
      + intros [Hl Hm]. split; [split|]; [now apply Hm | lia | lia].
    - split.
      + intros [[_ H1] H2]. split; [lia | discriminate].
      + intros [Hl _]. split; [split|]; [reflexivity | lia | lia]. }
  unfold server.request. split; intros H.
  - apply Hiff in H. now rewrite H.
  - destruct (MemorySearch.validate search) eqn:E; [|reflexivity].
    exfalso. apply H. now apply Hiff.
Qed.

Lemma search_request_validation_witness :
  server.request MemorySearch.validate server.search_memories
                 (Scenario.search "hello" 0) Scenario.w1
  = (Raise (RequestValidationError "body"), Scenario.w1).
Proof.
  apply (proj2 (search_request_validation (Scenario.search "hello" 0)
                                          Scenario.w1)).
  intros [[H _] _]. simpl in H. lia.
Defined.

(** ** Starting and stopping the services *)

(** X20.  [init_vector_client] assigns the client before it tests the
    connection: when Qdrant cannot be reached the call raises, but the
    client is set from then on, and a second call returns at once without
    testing anything. *)
Theorem init_vector_client_keeps_an_untested_client (w : World) :
  _client w = false ->
  reachable (qdrant w) = false ->
  exists e w',
    vector_service.init_vector_client w = (Raise e, w')
    /\ _client w' = true
    /\ qdrant w' = qdrant w
    /\ vector_service.init_vector_client w' = (Return tt, w').
Proof.
  intros Hc Hu.
  unfold vector_service.init_vector_client, vector_service.connected.
  run. rewrite Hc. simpl. rewrite Hu.
  eexists. eexists. split; [reflexivity|]. simpl. repeat split.
Qed.

Lemma init_vector_client_keeps_an_untested_client_witness :
  let w := with_client false (Scenario.set_reachable false Scenario.w0) in
  exists e w',
    vector_service.init_vector_client w = (Raise e, w')
    /\ vector_service.init_vector_client w' = (Return tt, w').
Proof.
  intros w.
  destruct (init_vector_client_keeps_an_untested_client w)
    as (e & w' & H1 & _ & _ & H2).
  - reflexivity.
  - reflexivity.
  - exists e, w'. split; assumption.
Defined.

(** X21.  From a process in which nothing is initialised, the startup of
    [lifespan] succeeds exactly when PostgreSQL accepts connections, Qdrant
    can be reached and the embedding model can be loaded; it then leaves
    the pool open, the client set and that model loaded, and has not
    touched the stored rows and points.  When only the model cannot be
    loaded, the startup raises with the pool already open and the client
    already set. *)
Theorem lifespan_startup_succeeds (pretrained : option SentenceTransformer)
    (w : World) :
  _pool w = false -> _client w = false ->
  (accepting (postgres w) = true /\ reachable (qdrant w) = true
   /\ pretrained <> None
   <-> exists w', server.lifespan_startup pretrained w = (Return tt, w'))
  /\ (forall w', server.lifespan_startup pretrained w = (Return tt, w') ->
        db_ready w'
        /\ _client w' = true
        /\ _sbert_model w' = pretrained
        /\ postgres w' = postgres w
        /\ qdrant w' = qdrant w)
  /\ (accepting (postgres w) = true -> reachable (qdrant w) = true ->
      pretrained = None ->
      exists e w',
        server.lifespan_startup pretrained w = (Raise e, w')
        /\ _pool w' = true /\ _client w' = true
        /\ _sbert_model w' = _sbert_model w).
Proof.
  intros Hp Hc.
  unfold server.lifespan_startup, database_service.init_pool,
    vector_service.init_vector_client, vector_service.connected,
    embedding_service.init_embedding_models.
  run. rewrite Hp.
  destruct (accepting (postgres w)) eqn:Ha; simpl.
  - rewrite Hc. simpl.
    destruct (reachable (qdrant w)) eqn:Hu; simpl.
    + destruct pretrained as [model|]; simpl.
      * split; [|split].
        -- split; [intros _; eexists; reflexivity|].
           intros _. repeat split. discriminate.
        -- intros w' E. injection E as <-. simpl. repeat split; assumption.
        -- discriminate.
      * split; [|split].
        -- split; [intros (_ & _ & H); now contradiction H|].
           intros [w' E]. discriminate.
        -- intros w' E. discriminate.
        -- intros _ _ _. eexists. eexists. split; [reflexivity|].
           simpl. repeat split.
    + split; [|split].
      * split; [intros (_ & H & _); discriminate | intros [w' E]; discriminate].
      * intros w' E. discriminate.
      * discriminate.
  - split; [|split].
    + split; [intros (H & _); discriminate | intros [w' E]; discriminate].
    + intros w' E. discriminate.
    + discriminate.
Qed.

Lemma lifespan_startup_succeeds_witness :
  let w := with_sbert_model None (with_client false (with_pool false Scenario.w1)) in
  (exists w',
     server.lifespan_startup (Some Scenario.model) w = (Return tt, w')
     /\ db_ready w')
  /\ exists e w',
       server.lifespan_startup None w = (Raise e, w') /\ _pool w' = true.
Proof.
  intros w. split.
  - destruct (lifespan_startup_succeeds (Some Scenario.model) w
                eq_refl eq_refl) as (Hiff & Hpost & _).
    destruct (proj1 Hiff) as [w' Hrun].
    { repeat split. discriminate. }
    exists w'. split; [exact Hrun|].
    now destruct (Hpost w' Hrun).
  - destruct (lifespan_startup_succeeds None w eq_refl eq_refl)
      as (_ & _ & Hfail).
    destruct (Hfail eq_refl eq_refl eq_refl) as (e & w' & Hrun & Hpool & _).
    exists e, w'. split; assumption.
Defined.

(** X22.  After the shutdown of [lifespan] nothing is initialised any
    more, the stored rows and points are as they were, and each of the four
    memory endpoints answers with a 500 error without changing
    anything. *)
Theorem lifespan_shutdown_stops_the_endpoints (w : World) :
  exists w',
    server.lifespan_shutdown w = (Return tt, w')
    /\ _pool w' = false /\ _client w' = false /\ _sbert_model w' = None
    /\ postgres w' = postgres w /\ qdrant w' = qdrant w
    /\ (forall memory, exists detail,
          server.create_memory memory w' = (Raise (HTTPException 500 detail), w'))
    /\ (forall search, exists detail,
          server.search_memories search w' = (Raise (HTTPException 500 detail), w'))
    /\ (forall memory_id, exists detail,
          server.get_memory memory_id w' = (Raise (HTTPException 500 detail), w'))
    /\ (forall memory_id, exists detail,
          server.delete_memory memory_id w' = (Raise (HTTPException 500 detail), w')).
Proof.
  unfold server.lifespan_shutdown, database_service.close_pool,
    vector_service.shutdown, embedding_service.shutdown.
  run.
  destruct (_pool w) eqn:Hp; simpl; rewrite ?Hp;
    destruct (_client w) eqn:Hc; simpl; rewrite ?Hc;
    (eexists; split; [reflexivity|]); simpl;
    (repeat split; try assumption);
    intros x; eexists;
    unfold server.create_memory, server.search_memories, server.get_memory,
      server.delete_memory, try_except,
      embedding_service.generate_memory_embeddings,
      embedding_service.get_text_embedding_sbert,
      database_service.get_memory, database_service.soft_delete_memory,
      database_service.get_connection;
    run; simpl; rewrite ?Hp; reflexivity.
Qed.
